(** * Module-import diagnostics of the Deno language server

    A shallow embedding of [server/src/diagnostics.ts]: the table of quick
    fixes, the code-action handler, the walk that collects module specifiers
    from a TypeScript syntax tree, and the loop that turns every specifier
    into diagnostics.

    Conventions.
    - A JavaScript string is the list of its UTF-16 code units ([list N]);
      [str] injects an ASCII literal.
    - JavaScript numbers that hold offsets, columns and enum values are [Z].
    - An awaited call that may reject is a value of [exc]; the array
      [diagnosticsForThisDocument] is threaded as explicit state, so that
      what was pushed before a rejection stays visible. *)

From Stdlib Require Import ZArith NArith String Ascii List Bool Lia.
From Stdlib Require Import Sorted.
From stdpp Require Import gmap list.

Local Open Scope Z_scope.
Set Warnings "-register-all".

(** ** JavaScript strings *)

Abbreviation jsstring := (list N).

Definition str (s : string) : jsstring :=
  map N_of_ascii (list_ascii_of_string s).

(** [String.prototype.length], as a JavaScript number. *)
Definition jslength (s : jsstring) : Z := Z.of_nat (length s).

(** ** Regular expressions

    The four patterns of the source are kept as syntax and run by a small
    backtracking matcher that follows the ECMAScript order of alternatives
    (greedy quantifiers first).  None of the patterns carries a flag, so [^]
    and [$] are the ends of the input and [.] excludes the four line
    terminators. *)

Module RegExp.

Inductive regex : Type :=
| Eps                              (* the empty pattern *)
| Bos                              (* ^ *)
| Eos                              (* $ *)
| Chr (c : N)                      (* a literal character *)
| Dot                              (* . *)
| Cls (ranges : list (N * N))      (* [a-b...] *)
| Seq (a b : regex)
| Star (a : regex)                 (* a* *)
| Plus (a : regex)                 (* a+ *)
| Opt (a : regex).                 (* a? *)

(** A literal run of characters such as [https:\/\/]. *)
Fixpoint lits (l : jsstring) : regex :=
  match l with
  | [] => Eps
  | c :: l' => Seq (Chr c) (lits l')
  end.

Definition isLineTerminator (c : N) : bool :=
  ((c =? 10) || (c =? 13) || (c =? 8232) || (c =? 8233))%N.

Definition inRanges (ranges : list (N * N)) (c : N) : bool :=
  existsb (fun r => (fst r <=? c) && (c <=? snd r))%N ranges.

(** A matcher state: the index reached and the input still to read. *)
Definition state : Type := nat * jsstring.

Definition advance (p : N -> bool) (st : state) : list state :=
  match snd st with
  | c :: rest => if p c then [(S (fst st), rest)] else []
  | [] => []
  end.

(** Greedy iteration.  An iteration that consumes nothing is rejected, as
    in ECMAScript; every accepted iteration shortens the input, so the
    length of the input is enough fuel. *)
Fixpoint star_loop (step : state -> list state) (fuel : nat) (st : state)
  : list state :=
  match fuel with
  | O => [st]
  | S fuel' =>
      flat_map
        (fun st' =>
           if (length (snd st') <? length (snd st))%nat
           then star_loop step fuel' st' else [])
        (step st)
      ++ [st]
  end.

(** All the ways [r] matches at [st], best first. *)
Fixpoint run (r : regex) (st : state) : list state :=
  match r with
  | Eps => [st]
  | Bos => match fst st with O => [st] | S _ => [] end
  | Eos => match snd st with [] => [st] | _ :: _ => [] end
  | Chr c => advance (N.eqb c) st
  | Dot => advance (fun x => negb (isLineTerminator x)) st
  | Cls ranges => advance (inRanges ranges) st
  | Seq a b => flat_map (run b) (run a st)
  | Star a => star_loop (run a) (length (snd st)) st
  | Plus a =>
      flat_map (fun st' => star_loop (run a) (length (snd st')) st')
               (run a st)
  | Opt a => run a st ++ [st]
  end.

(** The match that starts exactly at index [i], where [s] is the input
    from [i] on: the matched substring. *)
Definition execAt (r : regex) (i : nat) (s : jsstring) : option jsstring :=
  match run r (i, s) with
  | (j, _) :: _ => Some (take (j - i) s)
  | [] => None
  end.

(** The leftmost match at or after index [i]. *)
Fixpoint execFrom (r : regex) (i : nat) (s : jsstring) : option jsstring :=
  match execAt r i s with
  | Some m => Some m
  | None =>
      match s with
      | [] => None
      | _ :: s' => execFrom r (S i) s'
      end
  end.

(** [RegExp.prototype.exec] of a pattern without flags, reduced to the
    whole match (element 0 of the result array). *)
Definition exec (r : regex) (s : jsstring) : option jsstring :=
  execFrom r 0 s.

(** [RegExp.prototype.test]. *)
Definition test (r : regex) (s : jsstring) : bool :=
  match exec r s with Some _ => true | None => false end.

End RegExp.

Import RegExp.

(** [/^\..+/] *)
Definition relativeModulePattern : regex :=
  Seq Bos (Seq (Chr 46) (Plus Dot)).

(** [/^https?:\/\/.*/] *)
Definition remoteModulePattern : regex :=
  Seq Bos (Seq (lits (str "http"))
            (Seq (Opt (Chr 115)) (Seq (lits (str "://")) (Star Dot)))).

(** [/^https:\/\//] *)
Definition httpsPattern : regex :=
  Seq Bos (lits (str "https://")).

(** [/\.[a-zA-Z\d]+$/] *)
Definition extensionPattern : regex :=
  Seq (Chr 46) (Seq (Plus (Cls [(97, 122); (65, 90); (48, 57)]%N)) Eos).

(** ** Protocol data (vscode-languageserver) *)

Record Position : Type := mkPosition { line : Z; character : Z }.

Record Range : Type := mkRange { range_start : Position; range_end : Position }.

(** [Range.create(start, end)] *)
Definition Range_create (s e : Position) : Range :=
  {| range_start := s; range_end := e |}.

Inductive DiagnosticSeverity : Type :=
| SeverityError | SeverityWarning | SeverityInformation | SeverityHint.

Record Diagnostic : Type := mkDiagnostic {
  range : Range;
  message : jsstring;
  severity : DiagnosticSeverity;
  code : Z;
  source : jsstring
}.

(** [Diagnostic.create(range, message, severity, code, source)] *)
Definition Diagnostic_create (r : Range) (msg : jsstring)
  (sev : DiagnosticSeverity) (c : Z) (src : jsstring) : Diagnostic :=
  {| range := r; message := msg; severity := sev; code := c; source := src |}.

Inductive CommandArgument : Type :=
| ArgString (s : jsstring)
| ArgRange (r : Range).

Record Command : Type := mkCommand {
  command_title : jsstring;
  command_name : jsstring;
  command_arguments : list CommandArgument
}.

(** [Command.create(title, command, ...args)] *)
Definition Command_create (t c : jsstring) (args : list CommandArgument)
  : Command :=
  {| command_title := t; command_name := c; command_arguments := args |}.

Inductive CodeActionKind : Type := QuickFix.

Record CodeAction : Type := mkCodeAction {
  action_title : jsstring;
  action_command : Command;
  action_kind : CodeActionKind
}.

(** [CodeAction.create(title, command, kind)] *)
Definition CodeAction_create (t : jsstring) (c : Command) (k : CodeActionKind)
  : CodeAction :=
  {| action_title := t; action_command := c; action_kind := k |}.

(** ** The fix table *)

Record Fix : Type := mkFix { title : jsstring; command : jsstring }.

Inductive DiagnosticCode : Type :=
| InvalidModule
| MissingExtension
| PreferHTTPS
| LocalModuleNotExist
| RemoteModuleNotExist.

(** The numeric value of each enum member. *)
Definition codeValue (c : DiagnosticCode) : Z :=
  match c with
  | InvalidModule => 1001
  | MissingExtension => 1002
  | PreferHTTPS => 1003
  | LocalModuleNotExist => 1004
  | RemoteModuleNotExist => 1005
  end.

Definition FixItems : gmap Z Fix :=
  {[ codeValue MissingExtension :=
       {| title := str "Add `.ts` extension.";
          command := str "deno._add_missing_extension" |};
     codeValue PreferHTTPS :=
       {| title := str "Use HTTPS module.";
          command := str "deno._use_https_module" |};
     codeValue LocalModuleNotExist :=
       {| title := str "Create module.";
          command := str "deno._create_local_module" |};
     codeValue RemoteModuleNotExist :=
       {| title := str "Fetch module.";
          command := str "deno._fetch_remote_module" |} ]}.

(** ** The code-action handler *)

Record CodeActionParams : Type := mkCodeActionParams {
  context_diagnostics : list Diagnostic;
  textDocument_uri : jsstring
}.

(** The range handed to the command of a fix. *)
Definition commandRange (v : Diagnostic) : Range :=
  {| range_start :=
       {| line := line (range_start (range v));
          character := character (range_start (range v)) + 1 |};
     range_end :=
       {| line := line (range_end (range v));
          character := character (range_end (range v)) - 1 |} |}.

(** The callback of [denoDiagnostics.map]: [None] is the bare [return]. *)
Definition toAction (name uri : jsstring) (v : Diagnostic)
  : option CodeAction :=
  let code := code v in
  match FixItems !! code with
  | None => None
  | Some fixItem =>
      Some (CodeAction_create
              (title fixItem ++ str " (" ++ name ++ str ")")
              (Command_create (title fixItem) (command fixItem)
                 [ArgString uri; ArgRange (commandRange v)])
              QuickFix)
  end.

(** The handler registered with [connection.onCodeAction]; [None] is the
    bare [return] taken when no diagnostic comes from this server. *)
Definition onCodeAction (name : jsstring) (params : CodeActionParams)
  : option (list CodeAction) :=
  let diagnostics := context_diagnostics params in
  let denoDiagnostics :=
    filter (fun v => source v = name) diagnostics in
  match denoDiagnostics with
  | [] => None
  | _ :: _ =>
      let actions :=
        omap id (toAction name (textDocument_uri params) <$> denoDiagnostics) in
      Some actions
  end.

(** ** Syntax trees (typescript)

    Only what [delintNode] reads and what [ts.forEachChild] walks is kept:
    the four node kinds of the [switch], the nodes they are tested against,
    and a generic node for every other kind. *)

Record LiteralLikeNode : Type := mkLiteral {
  pos : Z;              (* full start: includes the leading trivia *)
  end_ : Z;             (* just past the last character of the token *)
  text : jsstring       (* the cooked text, without the quotes *)
}.

(** The kinds of the nodes that are only walked through. *)
Inductive SyntaxKind : Type :=
| SourceFile
| EndOfFileToken
| Identifier
| ImportClause
| VariableStatement
| VariableDeclarationList
| VariableDeclaration
| ExpressionStatement
| UnlistedKind (k : Z).

Inductive Node : Type :=
| StringLiteral (lit : LiteralLikeNode)
| ImportKeyword
| CallExpression (expression : option Node) (questionDotToken : option Node)
    (typeArguments : list Node) (arguments : list Node)
| ImportEqualsDeclaration (modifiers : list Node) (name : Node)
    (moduleReference : Node)
| ExternalModuleReference (expression : option Node)
| ImportDeclaration (modifiers : list Node) (importClause : option Node)
    (moduleSpecifier : option Node)
| ExportDeclaration (modifiers : list Node) (exportClause : option Node)
    (moduleSpecifier : option Node)
| OtherNode (kind : SyntaxKind) (children : list Node).

(** [ts.isStringLiteral(n)], together with the cast of the node. *)
Definition asStringLiteral (n : Node) : option LiteralLikeNode :=
  match n with
  | StringLiteral l => Some l
  | _ => None
  end.

(** [x && ts.isStringLiteral(x)] on a possibly missing node. *)
Definition literalOf (o : option Node) : option LiteralLikeNode :=
  match o with
  | Some n => asStringLiteral n
  | None => None
  end.

(** [expression?.kind === ts.SyntaxKind.ImportKeyword] *)
Definition isImportKeyword (o : option Node) : bool :=
  match o with
  | Some ImportKeyword => true
  | _ => false
  end.

(** [(node as ts.ExternalModuleReference).expression]: an entity name has
    no such property. *)
Definition referenceExpression (ref : Node) : option Node :=
  match ref with
  | ExternalModuleReference e => e
  | _ => None
  end.

(** [ts.forEachChild(node, cb)] for a callback that returns nothing: every
    child is visited, in the order of the node's properties. *)
Definition forEachChild {S : Type} (node : Node) (cb : Node -> S -> S) (s : S)
  : S :=
  let each := fold_left (fun acc c => cb c acc) in
  let opt o acc := match o with Some c => cb c acc | None => acc end in
  match node with
  | StringLiteral _ => s
  | ImportKeyword => s
  | CallExpression e q targs args =>
      each args (each targs (opt q (opt e s)))
  | ImportEqualsDeclaration ms n ref => cb ref (cb n (each ms s))
  | ExternalModuleReference e => opt e s
  | ImportDeclaration ms clause spec => opt spec (opt clause (each ms s))
  | ExportDeclaration ms clause spec => opt spec (opt clause (each ms s))
  | OtherNode _ cs => each cs s
  end.

(** The [switch] of [delintNode]: the literal a node contributes. *)
Definition moduleNodeOf (node : Node) : option LiteralLikeNode :=
  match node with
  | CallExpression expression _ _ args =>
      let isDynamicImport := isImportKeyword expression in
      if isDynamicImport then literalOf (head args) else None
  | ImportEqualsDeclaration _ _ moduleReference =>
      literalOf (referenceExpression moduleReference)
  | ImportDeclaration _ _ spec => literalOf spec
  | ExportDeclaration _ _ exportSpec => literalOf exportSpec
  | _ => None
  end.

(** [delintNode], with the array [moduleNodes] as state.  The source
    recurses on the JavaScript stack, outside the [try] around the parser:
    on a tree too deep for the stack the walk, and [generate] with it, ends
    in a [RangeError].  This is the walk that returns. *)
Fixpoint delintNode (node : Node) (moduleNodes : list LiteralLikeNode)
  : list LiteralLikeNode :=
  let moduleNodes :=
    match moduleNodeOf node with
    | Some moduleNode => moduleNodes ++ [moduleNode]
    | None => moduleNodes
    end in
  forEachChild node delintNode moduleNodes.

Definition delint (SourceFile : Node) : list LiteralLikeNode :=
  delintNode SourceFile [].

(** ** Text documents (vscode-languageserver-textdocument)

    The handler sees a document through the [TextDocument] interface. *)

Record TextDocument : Type := mkTextDocument {
  uri : jsstring;
  languageId : jsstring;
  version : Z;
  getText : jsstring;
  positionAt : Z -> Position
}.

(** The line starts of a text: offset 0 and the offset after every line
    break ([\n], [\r], or [\r\n] taken as one). *)
Fixpoint lineBreaksFrom (i : Z) (s : jsstring) : list Z :=
  match s with
  | [] => []
  | c :: rest =>
      if (c =? 13)%N then
        match rest with
        | c' :: rest' =>
            if (c' =? 10)%N then (i + 2) :: lineBreaksFrom (i + 2) rest'
            else (i + 1) :: lineBreaksFrom (i + 1) rest
        | [] => [i + 1]
        end
      else if (c =? 10)%N then (i + 1) :: lineBreaksFrom (i + 1) rest
      else lineBreaksFrom (i + 1) rest
  end.

Definition computeLineOffsets (content : jsstring) : list Z :=
  0 :: lineBreaksFrom 0 content.

(** [positionAt] of the library's full text document: the offset is clamped
    to the text, the line is the last one that starts at or before it. *)
Definition fullPositionAt (content : jsstring) (offset : Z) : Position :=
  let offset := Z.max (Z.min offset (jslength content)) 0 in
  let starts := filter (fun o => o <= offset) (computeLineOffsets content) in
  {| line := Z.of_nat (length starts) - 1;
     character := offset - List.last starts 0 |}.

(** [TextDocument.create(uri, languageId, version, content)] *)
Definition TextDocument_create (u l : jsstring) (v : Z) (content : jsstring)
  : TextDocument :=
  {| uri := u; languageId := l; version := v; getText := content;
     positionAt := fullPositionAt content |}.

(** ** Collaborators *)

(** The outcome of an awaited or throwing call. *)
Inductive exc (A : Type) : Type :=
| Ok (a : A)
| Throw (e : jsstring).
Arguments Ok {A} a.
Arguments Throw {A} e.

Record WorkspaceConfig : Type := mkConfig { enable : bool }.

(** What [deno.resolveModule] resolves to, as far as it is read here. *)
Record DenoModule : Type := mkModule {
  filepath : jsstring;
  raw : jsstring;
  remote : bool
}.

(** The services the analysis calls; each is kept as the caller sees it. *)
Record Services : Type := mkServices {
  (* await this.bridge.getWorkspaceConfig(uri) *)
  getWorkspaceConfig : jsstring -> exc WorkspaceConfig;
  (* ts.createSourceFile(uri, text, ESNext, false, TSX) *)
  createSourceFile : jsstring -> jsstring -> exc Node;
  (* path.dirname(URI.parse(uri).path) *)
  dirnameOfUri : jsstring -> jsstring;
  (* await deno.resolveModule(dir, specifier) *)
  resolveModule : jsstring -> jsstring -> exc DenoModule;
  (* ts.sys.fileExists(path) *)
  fileExists : jsstring -> bool
}.

(** ** The analysis *)

Definition validExtensionNameMap : gmap jsstring bool :=
  {[ str ".ts" := true;
     str ".tsx" := true;
     str ".js" := true;
     str ".jsx" := true;
     str ".json" := true;
     str ".wasm" := true ]}.

(** The properties an object literal inherits from [Object.prototype]; all
    of them hold functions or objects. *)
Definition objectPrototypeKeys : list jsstring :=
  map str
    ["constructor"; "__defineGetter__"; "__defineSetter__"; "hasOwnProperty";
     "__lookupGetter__"; "__lookupSetter__"; "isPrototypeOf";
     "propertyIsEnumerable"; "toString"; "valueOf"; "__proto__";
     "toLocaleString"]%string.

(** The truth value of [obj[key]] for an object literal with boolean
    properties; a key that is [undefined] reads the property ["undefined"]. *)
Definition truthyProperty (obj : gmap jsstring bool) (key : option jsstring)
  : bool :=
  let k := default (str "undefined") key in
  match obj !! k with
  | Some b => b
  | None => bool_decide (k ∈ objectPrototypeKeys)
  end.

Definition sourceLanguages : list jsstring :=
  [str "typescript"; str "typescriptreact"].

Section Generate.

(** [this.name] and the collaborators of one [Diagnostics] object. *)
Variable name : jsstring.
Variable services : Services.

(** [moduleNode.end - moduleNode.pos - (moduleNode.text.length + 2)],
    in absolute value. *)
Definition numberOfSpaces (moduleNode : LiteralLikeNode) : Z :=
  Z.abs (end_ moduleNode - pos moduleNode - (jslength (text moduleNode) + 2)).

Definition moduleRange (document : TextDocument)
  (moduleNode : LiteralLikeNode) : Range :=
  Range_create
    (positionAt document (pos moduleNode + numberOfSpaces moduleNode))
    (positionAt document (end_ moduleNode)).

Definition invalidModuleDiagnostic (range : Range) : Diagnostic :=
  Diagnostic_create range
    (str "Deno only supports importting `relative/HTTP` module.")
    SeverityError (codeValue InvalidModule) name.

Definition missingExtensionDiagnostic (range : Range) : Diagnostic :=
  Diagnostic_create range
    (str "Please specify valid extension name of the imported module.")
    SeverityError (codeValue MissingExtension) name.

Definition preferHTTPSDiagnostic (range : Range) : Diagnostic :=
  Diagnostic_create range
    (str "For security, we recommend using the HTTPS module.")
    SeverityWarning (codeValue PreferHTTPS) name.

Definition notExistDiagnostic (range : Range) (module : DenoModule)
  : Diagnostic :=
  Diagnostic_create range
    (str "Cannot found module `" ++ raw module ++ str "`.")
    SeverityError
    (if remote module then codeValue RemoteModuleNotExist
     else codeValue LocalModuleNotExist)
    name.

(** One turn of the [for ... of] loop.  The array is passed in and out;
    a rejected [resolveModule] leaves the loop with what was pushed. *)
Definition checkModuleNode (document : TextDocument) (dir : jsstring)
  (moduleNode : LiteralLikeNode) (diagnosticsForThisDocument : list Diagnostic)
  : exc unit * list Diagnostic :=
  let range := moduleRange document moduleNode in
  let isRelativeModule := test relativeModulePattern (text moduleNode) in
  let isRemoteModule := test remoteModulePattern (text moduleNode) in
  let diagnosticsForThisDocument :=
    if negb isRelativeModule && negb isRemoteModule
    then diagnosticsForThisDocument ++ [invalidModuleDiagnostic range]
    else diagnosticsForThisDocument in
  let diagnosticsForThisDocument :=
    let extensionName := exec extensionPattern (text moduleNode) in
    if negb (truthyProperty validExtensionNameMap extensionName)
    then diagnosticsForThisDocument ++ [missingExtensionDiagnostic range]
    else diagnosticsForThisDocument in
  let diagnosticsForThisDocument :=
    if isRemoteModule then
      if negb (test httpsPattern (text moduleNode))
      then diagnosticsForThisDocument ++ [preferHTTPSDiagnostic range]
      else diagnosticsForThisDocument
    else diagnosticsForThisDocument in
  match resolveModule services dir (text moduleNode) with
  | Throw e => (Throw e, diagnosticsForThisDocument)
  | Ok module =>
      if negb (fileExists services (filepath module))
      then (Ok (), diagnosticsForThisDocument ++ [notExistDiagnostic range module])
      else (Ok (), diagnosticsForThisDocument)
  end.

(** [for (const moduleNode of moduleNodes) { ... }] *)
Fixpoint checkModuleNodes (document : TextDocument) (dir : jsstring)
  (moduleNodes : list LiteralLikeNode)
  (diagnosticsForThisDocument : list Diagnostic)
  : exc unit * list Diagnostic :=
  match moduleNodes with
  | [] => (Ok (), diagnosticsForThisDocument)
  | moduleNode :: rest =>
      match checkModuleNode document dir moduleNode
              diagnosticsForThisDocument with
      | (Ok _, diagnosticsForThisDocument) =>
          checkModuleNodes document dir rest diagnosticsForThisDocument
      | (Throw e, diagnosticsForThisDocument) =>
          (Throw e, diagnosticsForThisDocument)
      end
  end.

(** [Diagnostics.generate] *)
Definition generate (document : TextDocument) : exc (list Diagnostic) :=
  if negb (bool_decide (languageId document ∈ sourceLanguages)) then Ok []
  else
    match getWorkspaceConfig services (uri document) with
    | Throw e => Throw e
    | Ok config =>
        if negb (enable config) then Ok []
        else
          match createSourceFile services (uri document) (getText document) with
          | Throw _ => Ok []
          | Ok sourceFile =>
              let moduleNodes := delint sourceFile in
              let dir := dirnameOfUri services (uri document) in
              match checkModuleNodes document dir moduleNodes [] with
              | (Ok _, diagnosticsForThisDocument) =>
                  Ok diagnosticsForThisDocument
              | (Throw e, _) => Throw e
              end
          end
    end.

(** What [diagnosis] hands to [connection.sendDiagnostics]; nothing is
    sent when [generate] rejects. *)
Record PublishDiagnosticsParams : Type := mkPublish {
  publish_uri : jsstring;
  publish_version : Z;
  publish_diagnostics : list Diagnostic
}.

Definition diagnosis (document : TextDocument)
  : exc PublishDiagnosticsParams :=
  match generate document with
  | Throw e => Throw e
  | Ok diagnostics =>
      Ok {| publish_uri := uri document;
            publish_version := version document;
            publish_diagnostics := diagnostics |}
  end.

End Generate.

(** The handler of the ["updateDiagnostic"] notification:
    [documents.get(uri)] and, for a document that is held, [diagnosis];
    [None] when nothing is started. *)
Definition onUpdateDiagnostic (name : jsstring) (services : Services)
  (documents : gmap jsstring TextDocument) (uri : jsstring)
  : option (exc PublishDiagnosticsParams) :=
  match documents !! uri with
  | Some document => Some (diagnosis name services document)
  | None => None
  end.

(** * Vocabulary of the properties *)

(** ** What the four patterns accept *)

(** [String.prototype.startsWith] *)
Fixpoint startsWith (p s : jsstring) : bool :=
  match p, s with
  | [], _ => true
  | _ :: _, [] => false
  | a :: p', b :: s' => (a =? b)%N && startsWith p' s'
  end.

(** A dot followed by at least one character that ends no line. *)
Definition relativePathLike (s : jsstring) : bool :=
  match s with
  | d :: c :: _ => (46 =? d)%N && negb (isLineTerminator c)
  | _ => false
  end.

Definition urlLike (s : jsstring) : bool :=
  startsWith (str "http://") s || startsWith (str "https://") s.

Definition isAlphaNumeric (c : N) : bool :=
  inRanges [(97, 122); (65, 90); (48, 57)]%N c.

(** A dot followed by one or more letters or digits, and nothing else. *)
Definition isExtension (e : jsstring) : bool :=
  match e with
  | d :: c :: body => (46 =? d)%N && forallb isAlphaNumeric (c :: body)
  | _ => false
  end.

Definition allowedExtensions : list jsstring :=
  [str ".ts"; str ".tsx"; str ".js"; str ".jsx"; str ".json"; str ".wasm"].

(** [s] ends with one of the allowed extensions. *)
Definition hasAllowedExtension (s : jsstring) : Prop :=
  ∃ stem e, s = stem ++ e ∧ e ∈ allowedExtensions.

(** Whether [r] matches at [st] at all. *)
Definition matches (r : regex) (st : state) : bool :=
  match run r st with [] => false | _ :: _ => true end.

(** The test of the source: [validExtensionNameMap[extensionName]]. *)
Definition hasValidExtension (s : jsstring) : bool :=
  truthyProperty validExtensionNameMap (exec extensionPattern s).

(** ** One module reference *)

(** A diagnostic of kind [k] is among [ds]. *)
Definition emitted (k : DiagnosticCode) (ds : list Diagnostic) : Prop :=
  ∃ d, d ∈ ds ∧ code d = codeValue k.

Definition emittedb (k : DiagnosticCode) (ds : list Diagnostic) : bool :=
  existsb (fun d => code d =? codeValue k) ds.

(** The codes of the existence check. *)
Definition isNotExistCode (d : Diagnostic) : bool :=
  (code d =? codeValue LocalModuleNotExist)
  || (code d =? codeValue RemoteModuleNotExist).

Section Reference.

Variable name : jsstring.
Variable services : Services.
Variable document : TextDocument.
Variable dir : jsstring.

(** What one turn of the loop pushes for [moduleNode]. *)
Definition pushedBy (moduleNode : LiteralLikeNode) : list Diagnostic :=
  snd (checkModuleNode name services document dir moduleNode []).

(** The four checks, each on its own. *)
Definition formCheck (range : Range) (specifier : jsstring)
  : list Diagnostic :=
  if test relativeModulePattern specifier
     || test remoteModulePattern specifier
  then [] else [invalidModuleDiagnostic name range].

Definition extensionCheck (range : Range) (specifier : jsstring)
  : list Diagnostic :=
  if hasValidExtension specifier then []
  else [missingExtensionDiagnostic name range].

Definition protocolCheck (range : Range) (specifier : jsstring)
  : list Diagnostic :=
  if test remoteModulePattern specifier
     && negb (test httpsPattern specifier)
  then [preferHTTPSDiagnostic name range] else [].

Definition existenceCheck (range : Range) (specifier : jsstring)
  : list Diagnostic :=
  match resolveModule services dir specifier with
  | Ok module =>
      if fileExists services (filepath module) then []
      else [notExistDiagnostic name range module]
  | Throw _ => []
  end.

(** The outcome of the turn: it fails exactly when the resolution does. *)
Definition turnOutcome (specifier : jsstring) : exc unit :=
  match resolveModule services dir specifier with
  | Ok _ => Ok ()
  | Throw e => Throw e
  end.

End Reference.

(** ** Syntax trees *)

(** [P] holds of the node, when there is one. *)
Definition optionHolds (P : Node → Prop) (o : option Node) : Prop :=
  match o with Some n => P n | None => True end.

(** A tree without import or export declarations in which no call has the
    [import] keyword as its callee: calls such as [require("...")] are the
    only constructs left that name a module. *)
Fixpoint plainCallsOnly (node : Node) : bool :=
  let opt o := match o with Some n => plainCallsOnly n | None => true end in
  match node with
  | StringLiteral _ => true
  | ImportKeyword => true
  | CallExpression e q targs args =>
      negb (isImportKeyword e) && opt e && opt q
      && forallb plainCallsOnly targs && forallb plainCallsOnly args
  | ImportEqualsDeclaration _ _ _ => false
  | ExternalModuleReference e => opt e
  | ImportDeclaration _ _ _ => false
  | ExportDeclaration _ _ _ => false
  | OtherNode _ cs => forallb plainCallsOnly cs
  end.

(** ** The range of a diagnostic *)

(** [content.substring(from, to)] for [0 <= from <= to]. *)
Definition substring (content : jsstring) (from to : Z) : jsstring :=
  take (Z.to_nat (to - from)) (drop (Z.to_nat from) content).

(** How the parser places a string literal written without escapes: the
    node starts at the trivia (blanks, comments) that precede the opening
    quote and ends just past the closing quote; its text is what stands
    between the quotes. *)
Definition literalAt (content : jsstring) (moduleNode : LiteralLikeNode)
  (trivia : jsstring) (quote : N) : Prop :=
  ∃ before after,
    content = before ++ trivia ++ quote :: text moduleNode ++ quote :: after ∧
    pos moduleNode = jslength before ∧
    end_ moduleNode =
      jslength before + jslength trivia + jslength (text moduleNode) + 2.

(** The range of the text between the quotes. *)
Definition plainTextRange (document : TextDocument)
  (moduleNode : LiteralLikeNode) (trivia : jsstring) : Range :=
  Range_create
    (positionAt document (pos moduleNode + jslength trivia + 1))
    (positionAt document (end_ moduleNode - 1)).

(** The range of the literal with its two quotes. *)
Definition quotedRange (document : TextDocument)
  (moduleNode : LiteralLikeNode) (trivia : jsstring) : Range :=
  Range_create
    (positionAt document (pos moduleNode + jslength trivia))
    (positionAt document (end_ moduleNode)).

(** ** Two documents *)

(** [import x from "./a"] *)
Definition importText : jsstring :=
  str "import x from " ++ [34%N] ++ str "./a" ++ [34%N].

Definition importDocument : TextDocument :=
  TextDocument_create (str "file:///work/main.ts") (str "typescript") 1
    importText.

Definition importLiteral : LiteralLikeNode :=
  {| pos := 13; end_ := 19; text := str "./a" |}.

Definition importTree : Node :=
  OtherNode SourceFile
    [ImportDeclaration []
       (Some (OtherNode ImportClause [OtherNode Identifier []]))
       (Some (StringLiteral importLiteral));
     OtherNode EndOfFileToken []].

(** [const y = require("http://example.com/mod.ts")] *)
Definition requireText : jsstring :=
  str "const y = require(" ++ [34%N] ++ str "http://example.com/mod.ts"
  ++ [34%N] ++ str ")".

Definition requireDocument : TextDocument :=
  TextDocument_create (str "file:///work/main.ts") (str "typescript") 1
    requireText.

Definition requireLiteral : LiteralLikeNode :=
  {| pos := 18; end_ := 45; text := str "http://example.com/mod.ts" |}.

Definition requireTree : Node :=
  OtherNode SourceFile
    [OtherNode VariableStatement
       [OtherNode VariableDeclarationList
          [OtherNode VariableDeclaration
             [OtherNode Identifier [];
              CallExpression (Some (OtherNode Identifier [])) None []
                [StringLiteral requireLiteral]]]];
     OtherNode EndOfFileToken []].

(** Services that parse every document to [tree], resolve every specifier
    as [resolve] says, and find no file. *)
Definition servicesFor (tree : Node)
  (resolve : jsstring → jsstring → exc DenoModule) : Services :=
  {| getWorkspaceConfig := λ _, Ok {| enable := true |};
     createSourceFile := λ _ _, Ok tree;
     dirnameOfUri := λ _, str "/work";
     resolveModule := resolve;
     fileExists := λ _, false |}.

Definition resolveLocal (dir specifier : jsstring) : exc DenoModule :=
  Ok {| filepath := dir ++ str "/" ++ specifier;
        raw := specifier;
        remote := false |}.

Definition resolveFails (dir specifier : jsstring) : exc DenoModule :=
  Throw (str "resolve failed").

Definition sampleRange : Range :=
  Range_create {| line := 0; character := 14 |} {| line := 0; character := 19 |}.

Definition sampleParams : CodeActionParams :=
  {| context_diagnostics :=
       [missingExtensionDiagnostic (str "deno") sampleRange];
     textDocument_uri := str "file:///work/mod.ts" |}.

(** ** The nodes of a tree *)

(** The children of a node, in the order [ts.forEachChild] visits them. *)
Definition children (node : Node) : list Node :=
  match node with
  | StringLiteral _ => []
  | ImportKeyword => []
  | CallExpression e q targs args =>
      option_list e ++ option_list q ++ targs ++ args
  | ImportEqualsDeclaration ms n ref => ms ++ [n; ref]
  | ExternalModuleReference e => option_list e
  | ImportDeclaration ms clause spec =>
      ms ++ option_list clause ++ option_list spec
  | ExportDeclaration ms clause spec =>
      ms ++ option_list clause ++ option_list spec
  | OtherNode _ cs => cs
  end.

(** All the nodes of a tree in pre-order: a node, then the nodes of its
    children from first to last. *)
Fixpoint descendants (node : Node) : list Node :=
  let opt o := match o with Some c => descendants c | None => [] end in
  node ::
  match node with
  | StringLiteral _ => []
  | ImportKeyword => []
  | CallExpression e q targs args =>
      opt e ++ opt q ++ flat_map descendants targs
      ++ flat_map descendants args
  | ImportEqualsDeclaration ms n ref =>
      flat_map descendants ms ++ descendants n ++ descendants ref
  | ExternalModuleReference e => opt e
  | ImportDeclaration ms clause spec =>
      flat_map descendants ms ++ opt clause ++ opt spec
  | ExportDeclaration ms clause spec =>
      flat_map descendants ms ++ opt clause ++ opt spec
  | OtherNode _ cs => flat_map descendants cs
  end.

(** ** The outcome of the loop *)

(** The error of the first reference, in order, whose resolution is
    rejected. *)
Fixpoint firstRejection (services : Services) (dir : jsstring)
  (moduleNodes : list LiteralLikeNode) : option jsstring :=
  match moduleNodes with
  | [] => None
  | moduleNode :: rest =>
      match resolveModule services dir (text moduleNode) with
      | Throw e => Some e
      | Ok _ => firstRejection services dir rest
      end
  end.

(** The severity that goes with each code. *)
Definition severityOf (k : DiagnosticCode) : DiagnosticSeverity :=
  match k with
  | PreferHTTPS => SeverityWarning
  | _ => SeverityError
  end.

(** The arguments the command of an action is created with. *)
Definition actionArguments (a : CodeAction) : list CommandArgument :=
  command_arguments (action_command a).

(** A registry that holds one document, under its uri. *)
Definition documentsHolding (document : TextDocument)
  : gmap jsstring TextDocument :=
  {[ uri document := document ]}.

(** ** More sample inputs *)

(** A document that is not TypeScript. *)
Definition markdownDocument : TextDocument :=
  TextDocument_create (str "file:///work/README.md") (str "markdown") 7
    (str "# notes").

(** Services whose configuration cannot be read. *)
Definition servicesWithoutConfig : Services :=
  {| getWorkspaceConfig := λ _, Throw (str "no config");
     createSourceFile := λ _ _, Ok importTree;
     dirnameOfUri := λ _, str "/work";
     resolveModule := resolveLocal;
     fileExists := λ _, false |}.

(** How the parser places a string literal in general: between the
    quotes stands the raw text, which escape sequences make longer than
    the text of the node. *)
Definition rawLiteralAt (content : jsstring) (moduleNode : LiteralLikeNode)
  (trivia : jsstring) (quote : N) (rawText : jsstring) : Prop :=
  ∃ before after,
    content = before ++ trivia ++ quote :: rawText ++ quote :: after ∧
    pos moduleNode = jslength before ∧
    end_ moduleNode =
      jslength before + jslength trivia + jslength rawText + 2.

(** [import "\x2e/a.ts"], whose literal reads [./a.ts]. *)
Definition escapedText : jsstring :=
  str "import " ++ [34%N] ++ str "\x2e/a.ts" ++ [34%N].

Definition escapedLiteral : LiteralLikeNode :=
  {| pos := 6; end_ := 18; text := str "./a.ts" |}.

(** [import "lodash"] *)
Definition bareText : jsstring :=
  str "import " ++ [34%N] ++ str "lodash" ++ [34%N].

Definition bareDocument : TextDocument :=
  TextDocument_create (str "file:///work/main.ts") (str "typescript") 1
    bareText.

Definition bareLiteral : LiteralLikeNode :=
  {| pos := 6; end_ := 15; text := str "lodash" |}.

Definition bareTree : Node :=
  OtherNode SourceFile
    [ImportDeclaration [] None (Some (StringLiteral bareLiteral));
     OtherNode EndOfFileToken []].

(** [import "http://x.com/a.ts"] *)
Definition insecureText : jsstring :=
  str "import " ++ [34%N] ++ str "http://x.com/a.ts" ++ [34%N].

Definition insecureDocument : TextDocument :=
  TextDocument_create (str "file:///work/main.ts") (str "typescript") 1
    insecureText.

Definition insecureLiteral : LiteralLikeNode :=
  {| pos := 6; end_ := 26; text := str "http://x.com/a.ts" |}.

Definition insecureTree : Node :=
  OtherNode SourceFile
    [ImportDeclaration [] None (Some (StringLiteral insecureLiteral));
     OtherNode EndOfFileToken []].

Definition resolveRemote (dir specifier : jsstring) : exc DenoModule :=
  Ok {| filepath := str "/deps/" ++ specifier;
        raw := specifier;
        remote := true |}.

(** [import] followed at once by an opening quote and [./a], where the
    text ends: the literal has no closing quote. *)
Definition unterminatedText : jsstring :=
  str "import" ++ [34%N] ++ str "./a".

Definition unterminatedLiteral : LiteralLikeNode :=
  {| pos := 6; end_ := 10; text := str "./a" |}.

(** * Properties *)

(** ** What the four patterns accept *)

(** Replaces the string constants of the goal by their code units. *)
Ltac norm_str :=
  repeat match goal with
         | |- context [str ?x] =>
             let v := eval vm_compute in (str x) in change (str x) with v
         end.

Section Patterns.

Local Arguments N.eqb : simpl never.
Local Arguments N.leb : simpl never.

Lemma execAt_Bos r i s : execAt (Seq Bos r) (S i) s = None.
Proof. reflexivity. Qed.

Lemma execFrom_Bos r s : ∀ i, execFrom (Seq Bos r) (S i) s = None.
Proof. induction s as [|c s IH]; intros i; simpl; auto. Qed.

Lemma test_Bos r s :
  test (Seq Bos r) s =
  match run r (0%nat, s) with [] => false | _ :: _ => true end.
Proof.
  unfold test, exec.
  assert (E : execAt (Seq Bos r) 0 s =
              match run r (0%nat, s) with
              | [] => None
              | (j, _) :: _ => Some (take (j - 0) s)
              end).
  { unfold execAt. simpl. now rewrite app_nil_r. }
  destruct s as [|c s]; simpl; rewrite E;
    destruct (run r _) as [|[j t] l]; auto.
  now rewrite execFrom_Bos.
Qed.

Lemma run_lits p : ∀ i s,
  run (lits p) (i, s) =
  if startsWith p s then [((length p + i)%nat, drop (length p) s)] else [].
Proof.
  induction p as [|a p IH]; intros i s; simpl; auto.
  destruct s as [|b s]; simpl; auto.
  unfold advance; simpl.
  destruct (N.eqb_spec a b); simpl; auto.
  rewrite IH, app_nil_r.
  destruct (startsWith p s); auto.
  repeat f_equal; lia.
Qed.

Lemma star_loop_nonempty step n st : star_loop step n st ≠ [].
Proof. destruct n; simpl; auto. intros H. now apply app_eq_nil in H as [_ H]. Qed.

Lemma test_relativeModulePattern s :
  test relativeModulePattern s = relativePathLike s.
Proof.
  unfold relativeModulePattern. rewrite test_Bos.
  destruct s as [|c0 [|c1 s]]; simpl; unfold advance; simpl.
  - reflexivity.
  - destruct (46 =? c0)%N; auto.
  - destruct (46 =? c0)%N; simpl; auto.
    destruct (isLineTerminator c1); simpl; auto.
    rewrite !app_nil_r.
    destruct (star_loop _ _ _) eqn:E; auto.
    now apply star_loop_nonempty in E.
Qed.

Lemma test_httpsPattern s :
  test httpsPattern s = startsWith (str "https://") s.
Proof.
  unfold httpsPattern. rewrite test_Bos, run_lits.
  now destruct (startsWith _ s).
Qed.

Lemma matches_Seq_lits p b i s :
  matches (Seq (lits p) b) (i, s) =
  startsWith p s && matches b ((length p + i)%nat, drop (length p) s).
Proof.
  unfold matches. simpl. rewrite run_lits.
  destruct (startsWith p s); simpl; auto.
  now rewrite app_nil_r.
Qed.

Lemma matches_Star a st : matches (Star a) st = true.
Proof.
  unfold matches. simpl.
  destruct (star_loop _ _ _) eqn:E; auto.
  now apply star_loop_nonempty in E.
Qed.

Lemma matches_Seq_Opt_Chr c b i s :
  matches (Seq (Opt (Chr c)) b) (i, s) =
  match s with
  | d :: s' => (c =? d)%N && matches b (S i, s')
  | [] => false
  end || matches b (i, s).
Proof.
  unfold matches. simpl. rewrite flat_map_app. simpl. rewrite app_nil_r.
  unfold advance. simpl.
  destruct s as [|d s']; simpl; auto.
  destruct (c =? d)%N; simpl; auto.
  rewrite app_nil_r.
  destruct (run b (S i, s')); auto.
Qed.

Lemma matches_lits_Star p a i s :
  matches (Seq (lits p) (Star a)) (i, s) = startsWith p s.
Proof. now rewrite matches_Seq_lits, matches_Star, andb_true_r. Qed.

Lemma test_remoteModulePattern s :
  test remoteModulePattern s = urlLike s.
Proof.
  unfold remoteModulePattern. rewrite test_Bos.
  change (matches (Seq (lits (str "http"))
                     (Seq (Opt (Chr 115))
                        (Seq (lits (str "://")) (Star Dot)))) (0%nat, s)
          = urlLike s).
  rewrite matches_Seq_lits, matches_Seq_Opt_Chr.
  set (tail := Seq (lits (str "://")) (Star Dot)).
  unfold urlLike. norm_str.
  destruct s as [|c0 [|c1 [|c2 [|c3 [|c4 s]]]]]; simpl;
    rewrite ?andb_false_r; auto.
  subst tail. rewrite !matches_lits_Star. norm_str.
  destruct s as [|c5 [|c6 [|c7 s]]]; simpl;
    repeat match goal with
           | |- context [(?a =? ?b)%N] => destruct (a =? b)%N eqn:?; simpl
           end; auto; congruence.
Qed.

(** Letters and digits to the end of the input, after a [+] or a [*]. *)
Lemma star_class_Eos rs : ∀ n s i,
  (length s ≤ n)%nat →
  flat_map (run Eos) (star_loop (run (Cls rs)) n (i, s)) =
  if forallb (inRanges rs) s then [((i + length s)%nat, [])] else [].
Proof.
  induction n as [|n IH]; intros s i Hn.
  - destruct s; simpl in *; [|lia]. now rewrite Nat.add_0_r.
  - destruct s as [|c s]; simpl.
    + now rewrite Nat.add_0_r.
    + unfold advance; simpl.
      destruct (inRanges rs c); simpl; auto.
      rewrite app_nil_r.
      replace (length s <? S (length s))%nat with true
        by (symmetry; apply Nat.ltb_lt; lia).
      rewrite flat_map_app; simpl. rewrite app_nil_r.
      rewrite IH by (simpl in Hn; lia).
      destruct (forallb _ s); auto.
      do 2 f_equal. lia.
Qed.

Lemma plus_class_Eos rs i s :
  flat_map (run Eos) (run (Plus (Cls rs)) (i, s)) =
  match s with
  | [] => []
  | c :: body =>
      if forallb (inRanges rs) (c :: body)
      then [((i + length s)%nat, [])] else []
  end.
Proof.
  destruct s as [|c body]; [reflexivity|].
  change (run (Plus (Cls rs)) (i, c :: body))
    with (flat_map
            (λ st' : state, star_loop (run (Cls rs)) (length st'.2) st')
            (if inRanges rs c then [(S i, body)] else [])).
  cbn [forallb].
  destruct (inRanges rs c); [|reflexivity].
  cbn [flat_map andb snd]. rewrite app_nil_r, star_class_Eos by lia.
  destruct (forallb _ body); [|reflexivity].
  cbn [length]. do 2 f_equal. lia.
Qed.

Lemma execAt_extensionPattern i s :
  execAt extensionPattern i s = if isExtension s then Some s else None.
Proof.
  unfold execAt, extensionPattern, isExtension, isAlphaNumeric.
  set (rs := [(97, 122); (65, 90); (48, 57)]%N).
  destruct s as [|d s]; [reflexivity|].
  change (run (Seq (Chr 46) (Seq (Plus (Cls rs)) Eos)) (i, d :: s))
    with (flat_map
            (λ st, flat_map (run Eos) (run (Plus (Cls rs)) st))
            (if (46 =? d)%N then [(S i, s)] else [])).
  destruct (46 =? d)%N; [|now destruct s].
  cbn [flat_map andb]. rewrite app_nil_r, plus_class_Eos.
  destruct s as [|c body]; [reflexivity|].
  destruct (forallb _ (c :: body)); [|reflexivity].
  f_equal.
  replace (S i + length (c :: body) - i)%nat with (length (d :: c :: body))
    by (cbn [length]; lia).
  apply firstn_all.
Qed.

Lemma execFrom_extensionPattern_Some s : ∀ i e,
  execFrom extensionPattern i s = Some e →
  ∃ stem, s = stem ++ e ∧ isExtension e = true.
Proof.
  induction s as [|c s IH]; intros i e; cbn [execFrom];
    rewrite execAt_extensionPattern.
  - cbn. discriminate.
  - destruct (isExtension (c :: s)) eqn:E.
    + intros [= <-]. now exists [].
    + intros H. apply IH in H as (stem & -> & H).
      now exists (c :: stem).
Qed.

Lemma isExtension_inside stem e :
  isExtension e = true → stem ≠ [] → isExtension (stem ++ e) = false.
Proof.
  intros He Hs.
  destruct e as [|d e]; [discriminate|].
  simpl in He. destruct e as [|c e]; [discriminate|].
  apply andb_true_iff in He as [Hd _].
  apply N.eqb_eq in Hd. subst d.
  destruct stem as [|a stem]; [congruence|].
  assert (F : ∀ l : jsstring, forallb isAlphaNumeric (l ++ 46%N :: c :: e) = false).
  { induction l as [|x l IHl]; simpl; [reflexivity|].
    rewrite IHl. apply andb_false_r. }
  cbn [app isExtension].
  destruct stem as [|b stem]; cbn [app].
  - pose proof (F []) as F0. cbn [app] in F0.
    rewrite F0. apply andb_false_r.
  - change (b :: stem ++ 46%N :: c :: e) with ((b :: stem) ++ 46%N :: c :: e).
    rewrite F. apply andb_false_r.
Qed.

Lemma execFrom_extensionPattern_suffix e : ∀ stem i,
  isExtension e = true →
  execFrom extensionPattern i (stem ++ e) = Some e.
Proof.
  intros stem i He. revert i.
  induction stem as [|c stem IH]; intros i.
  - cbn [app]. destruct e; cbn [execFrom];
      rewrite execAt_extensionPattern, He; auto.
  - change ((c :: stem) ++ e) with (c :: (stem ++ e)).
    cbn [execFrom]. rewrite execAt_extensionPattern.
    change (c :: (stem ++ e)) with ((c :: stem) ++ e).
    rewrite isExtension_inside by (auto; discriminate).
    apply IH.
Qed.

(** The match of the extension pattern is the one suffix of the
    specifier that is a dot followed by letters and digits. *)
Lemma exec_extensionPattern s e :
  exec extensionPattern s = Some e ↔
  ∃ stem, s = stem ++ e ∧ isExtension e = true.
Proof.
  split.
  - apply execFrom_extensionPattern_Some.
  - intros (stem & -> & He). now apply execFrom_extensionPattern_suffix.
Qed.

End Patterns.

(** ** The extension table *)

Lemma allowedExtensions_valid e :
  e ∈ allowedExtensions →
  isExtension e = true ∧ truthyProperty validExtensionNameMap (Some e) = true.
Proof.
  unfold allowedExtensions. intros H.
  repeat (apply elem_of_cons in H as [->|H]); try (split; vm_compute; reflexivity).
  now apply elem_of_nil in H.
Qed.

Lemma objectPrototypeKeys_no_extension e :
  e ∈ objectPrototypeKeys → isExtension e = false.
Proof.
  unfold objectPrototypeKeys. cbn [map]. intros H.
  repeat (apply elem_of_cons in H as [->|H]); try (vm_compute; reflexivity).
  now apply elem_of_nil in H.
Qed.

Lemma validExtensionNameMap_lookup e :
  e ∉ allowedExtensions → validExtensionNameMap !! e = None.
Proof.
  unfold allowedExtensions, validExtensionNameMap. intros H.
  repeat (apply not_elem_of_cons in H as [? H]).
  rewrite !lookup_insert_ne by congruence.
  now rewrite lookup_singleton_ne by congruence.
Qed.

Lemma truthyProperty_extension e :
  isExtension e = true →
  truthyProperty validExtensionNameMap (Some e) = true →
  e ∈ allowedExtensions.
Proof.
  intros He H.
  destruct (decide (e ∈ allowedExtensions)) as [|Hn]; [assumption|].
  unfold truthyProperty in H. cbn [default] in H.
  rewrite validExtensionNameMap_lookup in H by assumption.
  apply bool_decide_eq_true in H. change (id e) with e in H.
  apply objectPrototypeKeys_no_extension in H. congruence.
Qed.

(** The extension test passes exactly for the specifiers that end with an
    allowed extension. *)
Lemma hasValidExtension_spec s :
  hasValidExtension s = true ↔ hasAllowedExtension s.
Proof.
  unfold hasValidExtension, hasAllowedExtension. split.
  - destruct (exec extensionPattern s) as [e|] eqn:E.
    + apply exec_extensionPattern in E as (stem & -> & He).
      intros H. exists stem, e. split; [reflexivity|].
      now apply truthyProperty_extension.
    + vm_compute. discriminate.
  - intros (stem & e & -> & He).
    apply allowedExtensions_valid in He as [He Ht].
    assert (E : exec extensionPattern (stem ++ e) = Some e)
      by (apply exec_extensionPattern; eauto).
    now rewrite E.
Qed.

(** ** One module reference *)

Lemma emitted_emittedb k ds : emitted k ds ↔ emittedb k ds = true.
Proof.
  unfold emitted, emittedb. rewrite existsb_exists. split.
  - intros (d & Hd & Hc). exists d. split; [now apply list_elem_of_In|].
    now apply Z.eqb_eq.
  - intros (d & Hd & Hc). exists d. split; [now apply list_elem_of_In|].
    now apply Z.eqb_eq.
Qed.

Section ReferenceFacts.

Variable name : jsstring.
Variable services : Services.
Variable document : TextDocument.
Variable dir : jsstring.

(** A turn appends, to whatever was pushed before, the results of the
    four checks in order. *)
Lemma checkModuleNode_eq moduleNode acc :
  let range := moduleRange document moduleNode in
  let specifier := text moduleNode in
  checkModuleNode name services document dir moduleNode acc =
  (turnOutcome services dir specifier,
   acc ++ formCheck name range specifier
       ++ extensionCheck name range specifier
       ++ protocolCheck name range specifier
       ++ existenceCheck name services dir range specifier).
Proof.
  unfold checkModuleNode, turnOutcome, formCheck, extensionCheck,
    protocolCheck, existenceCheck, hasValidExtension.
  destruct (test relativeModulePattern _), (test remoteModulePattern _),
    (test httpsPattern _), (truthyProperty _ _),
    (resolveModule _ _ _) as [m|e]; cbn [negb andb orb];
    try destruct (fileExists _ _); cbn [negb app];
    rewrite ?app_nil_r, <- ?app_assoc; reflexivity.
Qed.

Lemma pushedBy_eq moduleNode :
  pushedBy name services document dir moduleNode =
  formCheck name (moduleRange document moduleNode) (text moduleNode)
  ++ extensionCheck name (moduleRange document moduleNode) (text moduleNode)
  ++ protocolCheck name (moduleRange document moduleNode) (text moduleNode)
  ++ existenceCheck name services dir (moduleRange document moduleNode)
       (text moduleNode).
Proof. unfold pushedBy. now rewrite checkModuleNode_eq. Qed.

Lemma checkModuleNode_pushedBy moduleNode acc :
  checkModuleNode name services document dir moduleNode acc =
  (turnOutcome services dir (text moduleNode),
   acc ++ pushedBy name services document dir moduleNode).
Proof. now rewrite pushedBy_eq, checkModuleNode_eq. Qed.

End ReferenceFacts.

(** Splits a goal about [pushedBy] into the cases of the four tests. *)
Ltac reference_cases :=
  rewrite ?pushedBy_eq;
  unfold formCheck, extensionCheck, protocolCheck, existenceCheck,
    notExistDiagnostic;
  repeat match goal with
         | |- context [test ?r ?s] => destruct (test r s) eqn:?
         | |- context [hasValidExtension ?s] =>
             destruct (hasValidExtension s) eqn:?
         | |- context [resolveModule ?sv ?d ?s] =>
             destruct (resolveModule sv d s) as [[? ? []]|] eqn:?
         | |- context [fileExists ?sv ?f] => destruct (fileExists sv f) eqn:?
         end;
  cbn [negb andb orb app filepath remote].

(** Closes a goal on which diagnostics a turn pushes, once the four tests
    have been split. *)
Ltac decide_emitted :=
  rewrite ?emitted_emittedb; reference_cases;
  unfold emittedb; cbn; intuition congruence.

(** Names the diagnostic [d] found in a list of pushed diagnostics. *)
Ltac pushed_member H :=
  repeat (apply elem_of_cons in H as [->|H]);
  try (now apply elem_of_nil in H).

Lemma hasValidExtension_false s :
  hasValidExtension s = false ↔
  match exec extensionPattern s with
  | Some e => e ∉ allowedExtensions
  | None => True
  end.
Proof.
  unfold hasValidExtension.
  destruct (exec extensionPattern s) as [e|] eqn:E.
  - apply exec_extensionPattern in E as (stem & _ & He).
    destruct (truthyProperty _ _) eqn:T.
    + apply truthyProperty_extension in T; [|assumption].
      split; [discriminate|contradiction].
    + split; [|reflexivity]. intros _ Hin.
      apply allowedExtensions_valid in Hin as [_ Hin]. congruence.
  - vm_compute. tauto.
Qed.

(** For every module reference, the turn of the loop pushes an
    [InvalidModule] diagnostic exactly when the specifier matches neither
    [/^\..+/] nor [/^https?:\/\/.*/] -- that is, when it is neither a dot
    followed by a character that ends no line, nor a text starting with
    [http://] or [https://] -- and that diagnostic is the error built for
    the reference's range. *)
Theorem invalid_module_iff_no_pattern_matches
  (name : jsstring) (services : Services) (document : TextDocument)
  (dir : jsstring) (moduleNode : LiteralLikeNode) :
  let ds := pushedBy name services document dir moduleNode in
  (emitted InvalidModule ds ↔
     test relativeModulePattern (text moduleNode) = false ∧
     test remoteModulePattern (text moduleNode) = false) ∧
  (emitted InvalidModule ds ↔
     relativePathLike (text moduleNode) = false ∧
     urlLike (text moduleNode) = false) ∧
  (∀ d, d ∈ ds → code d = codeValue InvalidModule →
        severity d = SeverityError ∧
        d = invalidModuleDiagnostic name (moduleRange document moduleNode)).
Proof.
  cbv zeta.
  rewrite <- test_relativeModulePattern, <- test_remoteModulePattern.
  split; [|split].
  - decide_emitted.
  - decide_emitted.
  - reference_cases; intros d Hd Hc; pushed_member Hd;
      solve [discriminate Hc | split; reflexivity].
Qed.

(** For every module reference, the turn of the loop pushes a
    [MissingExtension] diagnostic exactly when the match of
    [/\.[a-zA-Z\d]+$/] in the specifier is not one of [.ts], [.tsx], [.js],
    [.jsx], [.json], [.wasm] -- a specifier without such a match included --
    which is to say exactly when the specifier does not end with one of the
    six; the diagnostic is an error. *)
Theorem missing_extension_iff_not_allowed
  (name : jsstring) (services : Services) (document : TextDocument)
  (dir : jsstring) (moduleNode : LiteralLikeNode) :
  let ds := pushedBy name services document dir moduleNode in
  (emitted MissingExtension ds ↔
     match exec extensionPattern (text moduleNode) with
     | Some extensionName => extensionName ∉ allowedExtensions
     | None => True
     end) ∧
  (exec extensionPattern (text moduleNode) = None →
     emitted MissingExtension ds) ∧
  (emitted MissingExtension ds ↔ ¬ hasAllowedExtension (text moduleNode)) ∧
  (∀ d, d ∈ ds → code d = codeValue MissingExtension →
        severity d = SeverityError ∧
        d = missingExtensionDiagnostic name (moduleRange document moduleNode)).
Proof.
  cbv zeta.
  assert (E : emitted MissingExtension
                (pushedBy name services document dir moduleNode) ↔
              hasValidExtension (text moduleNode) = false)
    by decide_emitted.
  split; [|split; [|split]].
  - now rewrite E, hasValidExtension_false.
  - intros H. apply E, hasValidExtension_false. now rewrite H.
  - rewrite E, <- hasValidExtension_spec.
    destruct (hasValidExtension _); intuition congruence.
  - reference_cases; intros d Hd Hc; pushed_member Hd;
      solve [discriminate Hc | split; reflexivity].
Qed.

(** For every module reference, the turn of the loop pushes a
    [PreferHTTPS] diagnostic exactly when the specifier matches
    [/^https?:\/\/.*/] and does not match [/^https:\/\//], that is, when it
    starts with [http://] or [https://] but not with [https://]; so a
    specifier that is not URL-like never gets one.  The diagnostic is a
    warning. *)
Theorem prefer_https_iff_insecure_url
  (name : jsstring) (services : Services) (document : TextDocument)
  (dir : jsstring) (moduleNode : LiteralLikeNode) :
  let ds := pushedBy name services document dir moduleNode in
  (emitted PreferHTTPS ds ↔
     test remoteModulePattern (text moduleNode) = true ∧
     test httpsPattern (text moduleNode) = false) ∧
  (emitted PreferHTTPS ds ↔
     urlLike (text moduleNode) = true ∧
     startsWith (str "https://") (text moduleNode) = false) ∧
  (urlLike (text moduleNode) = false → ¬ emitted PreferHTTPS ds) ∧
  (∀ d, d ∈ ds → code d = codeValue PreferHTTPS →
        severity d = SeverityWarning ∧
        d = preferHTTPSDiagnostic name (moduleRange document moduleNode)).
Proof.
  cbv zeta.
  rewrite <- test_remoteModulePattern, <- test_httpsPattern.
  split; [|split; [|split]].
  - decide_emitted.
  - decide_emitted.
  - decide_emitted.
  - reference_cases; intros d Hd Hc; pushed_member Hd;
      solve [discriminate Hc | split; reflexivity].
Qed.

(** C10.  For every module reference, the turn of the loop never pushes
    both [InvalidModule] and [PreferHTTPS], pushes at most one diagnostic of
    the existence check (so never both [LocalModuleNotExist] and
    [RemoteModuleNotExist]), and pushes at most three diagnostics. *)
Theorem at_most_three_per_reference
  (name : jsstring) (services : Services) (document : TextDocument)
  (dir : jsstring) (moduleNode : LiteralLikeNode) :
  let ds := pushedBy name services document dir moduleNode in
  ¬ (emitted InvalidModule ds ∧ emitted PreferHTTPS ds) ∧
  ¬ (emitted LocalModuleNotExist ds ∧ emitted RemoteModuleNotExist ds) ∧
  (length (List.filter isNotExistCode ds) ≤ 1)%nat ∧
  (length ds ≤ 3)%nat.
Proof.
  cbv zeta. split; [|split; [|split]].
  - decide_emitted.
  - decide_emitted.
  - reference_cases; cbn; lia.
  - reference_cases; cbn; lia.
Qed.

(** ** Quick fixes *)

(** C7.  The fix table is a fixed map from codes to fixes: a diagnostic
    whose code is [MissingExtension], [PreferHTTPS], [LocalModuleNotExist]
    or [RemoteModuleNotExist] has exactly the one fix below (a title and a
    command identifier), and a diagnostic whose code is [InvalidModule] has
    none. *)
Theorem fix_lookup_by_kind (v : Diagnostic) (k : DiagnosticCode) :
  code v = codeValue k →
  FixItems !! code v =
  match k with
  | InvalidModule => None
  | MissingExtension =>
      Some {| title := str "Add `.ts` extension.";
              command := str "deno._add_missing_extension" |}
  | PreferHTTPS =>
      Some {| title := str "Use HTTPS module.";
              command := str "deno._use_https_module" |}
  | LocalModuleNotExist =>
      Some {| title := str "Create module.";
              command := str "deno._create_local_module" |}
  | RemoteModuleNotExist =>
      Some {| title := str "Fetch module.";
              command := str "deno._fetch_remote_module" |}
  end.
Proof. intros ->. destruct k; vm_compute; reflexivity. Qed.

Lemma fix_lookup_by_kind_witness :
  FixItems !! code (missingExtensionDiagnostic (str "deno") sampleRange) =
  Some {| title := str "Add `.ts` extension.";
          command := str "deno._add_missing_extension" |}.
Proof.
  apply (fix_lookup_by_kind
           (missingExtensionDiagnostic (str "deno") sampleRange)
           MissingExtension).
  reflexivity.
Defined.

Lemma toAction_Some name uri v a :
  toAction name uri v = Some a ↔
  ∃ fixItem,
    FixItems !! code v = Some fixItem ∧
    a = CodeAction_create
          (title fixItem ++ str " (" ++ name ++ str ")")
          (Command_create (title fixItem) (command fixItem)
             [ArgString uri; ArgRange (commandRange v)])
          QuickFix.
Proof.
  unfold toAction. destruct (FixItems !! code v) as [f|].
  - split.
    + intros [= <-]. now exists f.
    + intros (f' & [= <-] & ->). reflexivity.
  - split; [discriminate|]. now intros (f' & [=] & _).
Qed.

(** C8.  For every diagnostic of this server that has a fix, the handler
    answers with an action whose command receives the document and the
    diagnostic's range with one column added to its start and one column
    taken from its end, the lines unchanged; and every action of the answer
    is of that form. *)
Theorem command_range_is_narrowed
  (name : jsstring) (params : CodeActionParams) (v : Diagnostic)
  (fixItem : Fix) :
  v ∈ context_diagnostics params →
  source v = name →
  FixItems !! code v = Some fixItem →
  ∃ actions,
    onCodeAction name params = Some actions ∧
    CodeAction_create
      (title fixItem ++ str " (" ++ name ++ str ")")
      (Command_create (title fixItem) (command fixItem)
         [ArgString (textDocument_uri params);
          ArgRange
            {| range_start :=
                 {| line := line (range_start (range v));
                    character := character (range_start (range v)) + 1 |};
               range_end :=
                 {| line := line (range_end (range v));
                    character := character (range_end (range v)) - 1 |} |}])
      QuickFix ∈ actions ∧
    ∀ a, a ∈ actions →
         ∃ v', v' ∈ context_diagnostics params ∧ source v' = name ∧
               command_arguments (action_command a) =
               [ArgString (textDocument_uri params);
                ArgRange
                  {| range_start :=
                       {| line := line (range_start (range v'));
                          character :=
                            character (range_start (range v')) + 1 |};
                     range_end :=
                       {| line := line (range_end (range v'));
                          character :=
                            character (range_end (range v')) - 1 |} |}].
Proof.
  intros Hv Hs Hf. unfold onCodeAction. cbv zeta.
  assert (Hin : v ∈ filter (λ v0, source v0 = name) (context_diagnostics params))
    by (apply list_elem_of_filter; auto).
  destruct (filter _ (context_diagnostics params)) as [|v0 l] eqn:E.
  - now apply elem_of_nil in Hin.
  - rewrite <- E in *. clear E. eexists. split; [reflexivity|]. split.
    + apply list_elem_of_omap. eexists. split.
      * apply list_elem_of_fmap. exists v. split; [reflexivity|assumption].
      * cbn [id]. apply toAction_Some. now exists fixItem.
    + intros a Ha.
      apply list_elem_of_omap in Ha as (o & Ho & Ha). cbn [id] in Ha. subst o.
      apply list_elem_of_fmap in Ho as (v' & Ho & Hv').
      apply list_elem_of_filter in Hv' as [Hs' Hv'].
      symmetry in Ho. apply toAction_Some in Ho as (f & _ & ->).
      exists v'. auto.
Qed.

Lemma command_range_is_narrowed_witness :
  ∃ actions,
    onCodeAction (str "deno") sampleParams = Some actions ∧
    CodeAction_create
      (str "Add `.ts` extension." ++ str " (" ++ str "deno" ++ str ")")
      (Command_create (str "Add `.ts` extension.")
         (str "deno._add_missing_extension")
         [ArgString (str "file:///work/mod.ts");
          ArgRange
            (Range_create {| line := 0; character := 15 |}
                          {| line := 0; character := 18 |})])
      QuickFix ∈ actions.
Proof.
  destruct (command_range_is_narrowed (str "deno") sampleParams
              (missingExtensionDiagnostic (str "deno") sampleRange)
              {| title := str "Add `.ts` extension.";
                 command := str "deno._add_missing_extension" |})
    as (actions & Ha & Hin & _).
  - apply list_elem_of_singleton. reflexivity.
  - reflexivity.
  - vm_compute. reflexivity.
  - exists actions. split; [exact Ha|exact Hin].
Defined.

(** ** The walk over the syntax tree *)

Section NodeInduction.

Variable P : Node → Prop.

Hypothesis HStringLiteral : ∀ l, P (StringLiteral l).
Hypothesis HImportKeyword : P ImportKeyword.
Hypothesis HCallExpression : ∀ e q targs args,
  optionHolds P e → optionHolds P q → Forall P targs → Forall P args →
  P (CallExpression e q targs args).
Hypothesis HImportEquals : ∀ ms n ref,
  Forall P ms → P n → P ref → P (ImportEqualsDeclaration ms n ref).
Hypothesis HExternalModuleReference : ∀ e,
  optionHolds P e → P (ExternalModuleReference e).
Hypothesis HImportDeclaration : ∀ ms clause spec,
  Forall P ms → optionHolds P clause → optionHolds P spec →
  P (ImportDeclaration ms clause spec).
Hypothesis HExportDeclaration : ∀ ms clause spec,
  Forall P ms → optionHolds P clause → optionHolds P spec →
  P (ExportDeclaration ms clause spec).
Hypothesis HOtherNode : ∀ k cs, Forall P cs → P (OtherNode k cs).

Lemma Node_nested_ind : ∀ n : Node, P n.
Proof.
  fix IH 1. intros n.
  assert (all : ∀ l : list Node, Forall P l).
  { fix IHl 1. intros [|x l]; [apply List.Forall_nil|].
    apply List.Forall_cons; [apply IH|apply IHl]. }
  assert (opt : ∀ o : option Node, optionHolds P o).
  { intros [x|]; [apply IH|exact I]. }
  destruct n.
  - apply HStringLiteral.
  - apply HImportKeyword.
  - apply HCallExpression; auto.
  - apply HImportEquals; auto.
  - apply HExternalModuleReference; auto.
  - apply HImportDeclaration; auto.
  - apply HExportDeclaration; auto.
  - apply HOtherNode; auto.
Qed.

End NodeInduction.

Lemma delintNode_unfold node moduleNodes :
  delintNode node moduleNodes =
  forEachChild node delintNode
    match moduleNodeOf node with
    | Some moduleNode => moduleNodes ++ [moduleNode]
    | None => moduleNodes
    end.
Proof. destruct node; reflexivity. Qed.

(** Children that leave the array alone leave it alone together. *)
Lemma each_child_skipped (cs : list Node) :
  Forall (λ c, plainCallsOnly c = true → ∀ acc, delintNode c acc = acc) cs →
  forallb plainCallsOnly cs = true →
  ∀ acc, fold_left (λ acc c, delintNode c acc) cs acc = acc.
Proof.
  induction 1 as [|c cs Hc _ IH]; intros Hall acc; [reflexivity|].
  cbn [forallb] in Hall. apply andb_true_iff in Hall as [H1 H2].
  cbn [fold_left]. rewrite Hc by assumption. now apply IH.
Qed.

Lemma delintNode_plainCallsOnly node :
  plainCallsOnly node = true → ∀ acc, delintNode node acc = acc.
Proof.
  induction node as
    [l | | e q targs args He Hq Htargs Hargs | ms n ref _ _ _ | e He
     | ms clause spec _ _ _ | ms clause spec _ _ _ | k cs Hcs]
    using Node_nested_ind; intros Hp acc; rewrite delintNode_unfold;
    cbn [plainCallsOnly] in Hp; try discriminate Hp.
  - reflexivity.
  - reflexivity.
  - repeat (apply andb_true_iff in Hp as [Hp ?]).
    apply negb_true_iff in Hp.
    cbn [moduleNodeOf forEachChild]. rewrite Hp.
    rewrite !each_child_skipped by assumption.
    destruct q as [q|], e as [e|]; cbn [optionHolds] in *;
      rewrite ?Hq, ?He by assumption; reflexivity.
  - cbn [moduleNodeOf forEachChild].
    destruct e as [e|]; cbn [optionHolds] in *; auto.
  - cbn [moduleNodeOf forEachChild]. now apply each_child_skipped.
Qed.

(** ** The loop and [generate] *)

Section Loop.

Variable name : jsstring.
Variable services : Services.
Variable document : TextDocument.
Variable dir : jsstring.

(** While every resolution succeeds the loop collects, in order, what
    each turn pushes. *)
Lemma checkModuleNodes_resolved moduleNodes : ∀ acc,
  Forall (λ n, ∃ m, resolveModule services dir (text n) = Ok m) moduleNodes →
  checkModuleNodes name services document dir moduleNodes acc =
  (Ok (), acc ++ flat_map (pushedBy name services document dir) moduleNodes).
Proof.
  induction moduleNodes as [|n ns IH]; intros acc Hall.
  - cbn. now rewrite app_nil_r.
  - apply Forall_cons in Hall as [[m Hm] Hall].
    cbn [checkModuleNodes flat_map].
    rewrite checkModuleNode_pushedBy. unfold turnOutcome. rewrite Hm.
    rewrite IH by assumption. now rewrite app_assoc.
Qed.

(** One failed resolution fails the loop. *)
Lemma checkModuleNodes_throw moduleNodes : ∀ acc,
  Exists (λ n, ∃ e, resolveModule services dir (text n) = Throw e)
    moduleNodes →
  ∃ e ds,
    checkModuleNodes name services document dir moduleNodes acc
    = (Throw e, ds).
Proof.
  induction moduleNodes as [|n ns IH]; intros acc Hex.
  - now apply Exists_nil in Hex.
  - cbn [checkModuleNodes]. rewrite checkModuleNode_pushedBy.
    unfold turnOutcome.
    destruct (resolveModule services dir (text n)) as [m|e] eqn:E.
    + apply Exists_cons in Hex as [[e He]|Hex]; [congruence|].
      now apply IH.
    + eauto.
Qed.

End Loop.

Lemma generate_parsed name services document config sourceFile :
  languageId document ∈ sourceLanguages →
  getWorkspaceConfig services (uri document) = Ok config →
  enable config = true →
  createSourceFile services (uri document) (getText document)
  = Ok sourceFile →
  generate name services document =
  match checkModuleNodes name services document
          (dirnameOfUri services (uri document)) (delint sourceFile) [] with
  | (Ok _, diagnosticsForThisDocument) => Ok diagnosticsForThisDocument
  | (Throw e, _) => Throw e
  end.
Proof.
  intros Hl Hc He Hs. unfold generate.
  rewrite bool_decide_eq_true_2 by assumption. cbn [negb].
  now rewrite Hc, He, Hs.
Qed.

(** When every resolution succeeds, [generate] returns what the turns
    pushed, reference after reference. *)
Lemma generate_all_resolved name services document config sourceFile :
  languageId document ∈ sourceLanguages →
  getWorkspaceConfig services (uri document) = Ok config →
  enable config = true →
  createSourceFile services (uri document) (getText document)
  = Ok sourceFile →
  Forall (λ n, ∃ m, resolveModule services
                      (dirnameOfUri services (uri document)) (text n) = Ok m)
    (delint sourceFile) →
  generate name services document =
  Ok (flat_map
        (pushedBy name services document
           (dirnameOfUri services (uri document)))
        (delint sourceFile)).
Proof.
  intros Hl Hc He Hs Hall.
  rewrite (generate_parsed name services document config sourceFile)
    by assumption.
  now rewrite checkModuleNodes_resolved by assumption.
Qed.

(** Without references there is nothing to report. *)
Lemma generate_no_reference name services document config sourceFile :
  getWorkspaceConfig services (uri document) = Ok config →
  createSourceFile services (uri document) (getText document)
  = Ok sourceFile →
  delint sourceFile = [] →
  generate name services document = Ok [].
Proof.
  intros Hc Hs Hd. unfold generate.
  destruct (negb _); [reflexivity|]. rewrite Hc.
  destruct (negb _); [reflexivity|]. now rewrite Hs, Hd.
Qed.



(** ** Extraction *)

(** C9.  When the tree of a document has no import or export declaration
    and no call of the [import] keyword -- calls of [require] being the
    only constructs that name a module -- the walk extracts no reference
    and the analysis returns no diagnostic, whatever the resolution of the
    required specifier would give. *)
Theorem require_call_is_not_extracted
  (name : jsstring) (services : Services) (document : TextDocument)
  (config : WorkspaceConfig) (sourceFile : Node) :
  getWorkspaceConfig services (uri document) = Ok config →
  createSourceFile services (uri document) (getText document)
  = Ok sourceFile →
  plainCallsOnly sourceFile = true →
  delint sourceFile = [] ∧ generate name services document = Ok [].
Proof.
  intros Hc Hs Hp.
  assert (Hd : delint sourceFile = [])
    by (unfold delint; now apply delintNode_plainCallsOnly).
  split; [assumption|].
  now apply (generate_no_reference name services document config sourceFile).
Qed.

Lemma require_call_is_not_extracted_witness :
  (delint requireTree = [] ∧
   generate (str "deno") (servicesFor requireTree resolveLocal)
     requireDocument = Ok []) ∧
  emitted PreferHTTPS
    (pushedBy (str "deno") (servicesFor requireTree resolveLocal)
       requireDocument (str "/work") requireLiteral).
Proof.
  split.
  - apply (require_call_is_not_extracted (str "deno")
             (servicesFor requireTree resolveLocal) requireDocument
             {| enable := true |} requireTree); reflexivity.
  - apply emitted_emittedb. vm_compute. reflexivity.
Defined.

(** ** The range of a diagnostic *)

Lemma literalAt_importLiteral : literalAt importText importLiteral [32%N] 34.
Proof. exists (str "import x from"), []. repeat split. Qed.

Lemma literalAt_requireLiteral : literalAt requireText requireLiteral [] 34.
Proof. exists (str "const y = require("), (str ")"). repeat split. Qed.

(** C1, as stated, fails on [import x from "./a"]: the range of the
    diagnostics starts on the opening quote (column 14) and ends past the
    closing quote (column 19), while the text [./a] occupies columns 15 to
    18. *)
Lemma module_range_is_not_plain_text :
  literalAt (getText importDocument) importLiteral [32%N] 34 ∧
  moduleRange importDocument importLiteral =
    Range_create {| line := 0; character := 14 |}
                 {| line := 0; character := 19 |} ∧
  plainTextRange importDocument importLiteral [32%N] =
    Range_create {| line := 0; character := 15 |}
                 {| line := 0; character := 18 |} ∧
  moduleRange importDocument importLiteral
  ≠ plainTextRange importDocument importLiteral [32%N] ∧
  substring (getText importDocument) 14 19 = [34%N] ++ str "./a" ++ [34%N].
Proof.
  split; [exact literalAt_importLiteral|].
  split; [vm_compute; reflexivity|].
  split; [vm_compute; reflexivity|].
  split; [vm_compute; discriminate|].
  vm_compute. reflexivity.
Qed.

(** C1, amended.  For a string literal written without escapes and closed
    by its quote -- the span of the node is its trivia, the opening quote,
    the text and the closing quote -- the range of its diagnostics covers
    the literal with both quotes: it starts at
    the node's start plus [numberOfSpaces], which is the length of the
    trivia before the opening quote, hence on the opening quote, and it
    ends at the node's end, just past the closing quote. *)
Theorem module_range_covers_quoted_literal
  (document : TextDocument) (moduleNode : LiteralLikeNode)
  (trivia : jsstring) (quote : N) :
  literalAt (getText document) moduleNode trivia quote →
  numberOfSpaces moduleNode = jslength trivia ∧
  moduleRange document moduleNode = quotedRange document moduleNode trivia ∧
  substring (getText document)
    (pos moduleNode + numberOfSpaces moduleNode) (end_ moduleNode)
  = quote :: text moduleNode ++ [quote].
Proof.
  intros (before & after & Hc & Hp & He).
  assert (Hn : numberOfSpaces moduleNode = jslength trivia).
  { unfold numberOfSpaces. rewrite He, Hp. unfold jslength. lia. }
  split; [assumption|]. split.
  - unfold moduleRange, quotedRange. now rewrite Hn.
  - unfold substring. rewrite Hn, Hc, Hp, He. unfold jslength.
    replace (Z.to_nat (Z.of_nat (length before) + Z.of_nat (length trivia)))
      with (length (before ++ trivia)) by (rewrite length_app; lia).
    replace (Z.to_nat _)
      with (length (quote :: text moduleNode ++ [quote]))
      by (cbn [length]; rewrite length_app; cbn [length]; lia).
    rewrite (app_assoc before trivia), drop_app_length.
    change (quote :: text moduleNode ++ quote :: after)
      with ((quote :: text moduleNode) ++ [quote] ++ after).
    rewrite app_assoc.
    change ((quote :: text moduleNode) ++ [quote])
      with (quote :: text moduleNode ++ [quote]).
    apply take_app_length.
Qed.

Lemma module_range_covers_quoted_literal_witness :
  numberOfSpaces importLiteral = 1 ∧
  moduleRange importDocument importLiteral
  = quotedRange importDocument importLiteral [32%N] ∧
  substring importText (13 + numberOfSpaces importLiteral) 19
  = 34%N :: str "./a" ++ [34%N].
Proof.
  exact (module_range_covers_quoted_literal importDocument importLiteral
           [32%N] 34 literalAt_importLiteral).
Defined.

(** On the sample document the quick fix receives the range of the text
    between the quotes. *)
Example commandRange_importLiteral :
  commandRange
    (missingExtensionDiagnostic (str "deno")
       (moduleRange importDocument importLiteral))
  = plainTextRange importDocument importLiteral [32%N].
Proof. vm_compute. reflexivity. Qed.

(** ** A resolution that fails *)

(** C2, as stated, fails on [import x from "./a"] when the resolution of
    [./a] is rejected: the turn has pushed the diagnostic of the extension
    check, yet [generate] is rejected with the same error, so no sequence
    of diagnostics is returned and nothing is published. *)
Lemma failed_resolution_loses_all_diagnostics :
  let services := servicesFor importTree resolveFails in
  importLiteral ∈ delint importTree ∧
  resolveModule services (dirnameOfUri services (uri importDocument))
    (text importLiteral) = Throw (str "resolve failed") ∧
  pushedBy (str "deno") services importDocument
    (dirnameOfUri services (uri importDocument)) importLiteral
  = [missingExtensionDiagnostic (str "deno") sampleRange] ∧
  generate (str "deno") services importDocument
  = Throw (str "resolve failed") ∧
  (¬ ∃ ds, generate (str "deno") services importDocument = Ok ds) ∧
  diagnosis (str "deno") services importDocument
  = Throw (str "resolve failed").
Proof.
  cbv zeta.
  assert (G : generate (str "deno") (servicesFor importTree resolveFails)
                importDocument = Throw (str "resolve failed"))
    by (vm_compute; reflexivity).
  split; [apply list_elem_of_singleton; reflexivity|].
  split; [reflexivity|].
  split; [vm_compute; reflexivity|].
  split; [exact G|].
  split; [intros [ds H]; rewrite G in H; discriminate H|].
  unfold diagnosis. now rewrite G.
Qed.

(** C2, amended.  When the resolution of a reference of an analysed
    document is rejected, the turn of that reference pushes no diagnostic
    of the existence check, and [generate] is rejected as a whole: it
    returns no sequence of diagnostics, and [diagnosis] publishes none. *)
Theorem failed_resolution_rejects_generate
  (name : jsstring) (services : Services) (document : TextDocument)
  (config : WorkspaceConfig) (sourceFile : Node)
  (moduleNode : LiteralLikeNode) (e : jsstring) :
  languageId document ∈ sourceLanguages →
  getWorkspaceConfig services (uri document) = Ok config →
  enable config = true →
  createSourceFile services (uri document) (getText document)
  = Ok sourceFile →
  moduleNode ∈ delint sourceFile →
  resolveModule services (dirnameOfUri services (uri document))
    (text moduleNode) = Throw e →
  let ds := pushedBy name services document
              (dirnameOfUri services (uri document)) moduleNode in
  ¬ emitted LocalModuleNotExist ds ∧
  ¬ emitted RemoteModuleNotExist ds ∧
  ∃ e', generate name services document = Throw e' ∧
        diagnosis name services document = Throw e'.
Proof.
  intros Hl Hc He Hs Hin Hr. cbv zeta.
  split; [|split].
  - rewrite emitted_emittedb, pushedBy_eq.
    unfold existenceCheck. rewrite Hr.
    unfold formCheck, extensionCheck, protocolCheck, emittedb.
    repeat match goal with |- context [if ?b then _ else _] => destruct b end;
      cbn; congruence.
  - rewrite emitted_emittedb, pushedBy_eq.
    unfold existenceCheck. rewrite Hr.
    unfold formCheck, extensionCheck, protocolCheck, emittedb.
    repeat match goal with |- context [if ?b then _ else _] => destruct b end;
      cbn; congruence.
  - destruct (checkModuleNodes_throw name services document
                (dirnameOfUri services (uri document)) (delint sourceFile) [])
      as (e' & ds & Hloop).
    { apply Exists_exists. exists moduleNode. eauto. }
    exists e'.
    assert (G : generate name services document = Throw e').
    { rewrite (generate_parsed name services document config sourceFile)
        by assumption.
      now rewrite Hloop. }
    split; [exact G|]. unfold diagnosis. now rewrite G.
Qed.

Lemma failed_resolution_rejects_generate_witness :
  let services := servicesFor importTree resolveFails in
  let ds := pushedBy (str "deno") services importDocument
              (dirnameOfUri services (uri importDocument)) importLiteral in
  ¬ emitted LocalModuleNotExist ds ∧
  ¬ emitted RemoteModuleNotExist ds ∧
  ∃ e', generate (str "deno") services importDocument = Throw e' ∧
        diagnosis (str "deno") services importDocument = Throw e'.
Proof.
  apply (failed_resolution_rejects_generate (str "deno")
           (servicesFor importTree resolveFails) importDocument
           {| enable := true |} importTree importLiteral
           (str "resolve failed")).
  - vm_compute. apply list_elem_of_here.
  - reflexivity.
  - reflexivity.
  - reflexivity.
  - apply list_elem_of_singleton. reflexivity.
  - reflexivity.
Defined.

(** ** All the checks of a reference *)



(** * Further properties *)

(** ** Which references are extracted *)

Lemma forEachChild_children {S : Type} (node : Node) (cb : Node → S → S)
  (s : S) :
  forEachChild node cb s = fold_left (λ acc c, cb c acc) (children node) s.
Proof.
  destruct node as [l | | e q targs args | ms n ref | e | ms clause spec
                   | ms clause spec | k cs];
    cbn [forEachChild children]; rewrite ?fold_left_app;
    repeat match goal with o : option Node |- _ => destruct o end;
    reflexivity.
Qed.

Lemma descendants_children (node : Node) :
  descendants node = node :: flat_map descendants (children node).
Proof.
  destruct node as [l | | e q targs args | ms n ref | e | ms clause spec
                   | ms clause spec | k cs];
    cbn [descendants children]; rewrite ?flat_map_app;
    repeat match goal with o : option Node |- _ => destruct o end;
    unfold option_list; cbn [option_rect flat_map app];
    rewrite ?app_nil_r; reflexivity.
Qed.

(** Induction on a tree through the list of children of each node. *)
Lemma Node_children_ind (P : Node → Prop) :
  (∀ node, Forall P (children node) → P node) → ∀ node, P node.
Proof.
  intros H.
  assert (O : ∀ o, optionHolds P o → Forall P (option_list o))
    by (intros [c|] Hc; cbn; auto).
  induction node using Node_nested_ind; apply H; cbn [children];
    repeat apply Forall_app_2; auto.
Qed.

Lemma delintNode_descendants (node : Node) :
  ∀ acc, delintNode node acc = acc ++ omap moduleNodeOf (descendants node).
Proof.
  induction node as [node IH] using Node_children_ind. intros acc.
  rewrite delintNode_unfold, forEachChild_children, descendants_children.
  cbn [omap list_omap].
  set (start := match moduleNodeOf node with
                | Some moduleNode => acc ++ [moduleNode]
                | None => acc
                end).
  assert (F : ∀ cs, Forall (λ c, ∀ acc, delintNode c acc =
                                   acc ++ omap moduleNodeOf (descendants c)) cs →
                    ∀ acc, fold_left (λ acc c, delintNode c acc) cs acc =
                           acc ++ omap moduleNodeOf (flat_map descendants cs)).
  { induction 1 as [|c cs Hc _ IHcs]; intros a; cbn [fold_left flat_map].
    - now rewrite app_nil_r.
    - now rewrite Hc, IHcs, omap_app, app_assoc. }
  rewrite (F _ IH). subst start.
  destruct (moduleNodeOf node); [|reflexivity].
  now rewrite <- app_assoc.
Qed.

(** X1.  [delintNode] only appends to the array it is given: walking a
    tree after others have been walked adds, behind what is already
    there, exactly what the tree yields on its own. *)
Theorem delintNode_appends (node : Node) (moduleNodes : list LiteralLikeNode) :
  delintNode node moduleNodes = moduleNodes ++ delint node.
Proof.
  unfold delint. rewrite (delintNode_descendants node []).
  apply delintNode_descendants.
Qed.

(** X2.  The references of a tree are the literals of the import, export
    and dynamic-import sites among all its nodes, each site counted
    once, in pre-order: no subtree is skipped, whatever its depth. *)
Theorem delint_preorder (sourceFile : Node) :
  delint sourceFile = omap moduleNodeOf (descendants sourceFile).
Proof. unfold delint. now rewrite delintNode_descendants. Qed.

Lemma descendants_self (node : Node) : node ∈ descendants node.
Proof. rewrite descendants_children. apply list_elem_of_here. Qed.

Lemma descendants_child (node c : Node) :
  c ∈ children node → c ∈ descendants node.
Proof.
  intros Hc. rewrite descendants_children. apply list_elem_of_further.
  apply list_elem_of_In, in_flat_map. exists c.
  split; apply list_elem_of_In; [assumption|apply descendants_self].
Qed.

Lemma descendants_trans (node : Node) :
  ∀ m x, m ∈ descendants node → x ∈ descendants m → x ∈ descendants node.
Proof.
  induction node as [node IH] using Node_children_ind. intros m x Hm Hx.
  rewrite descendants_children in Hm.
  apply elem_of_cons in Hm as [->|Hm]; [assumption|].
  apply list_elem_of_In, in_flat_map in Hm as (c & Hc & Hm).
  apply list_elem_of_In in Hc, Hm.
  rewrite descendants_children. apply list_elem_of_further.
  apply list_elem_of_In, in_flat_map. exists c.
  split; apply list_elem_of_In; [assumption|].
  rewrite Forall_forall in IH. now apply (IH c Hc m x).
Qed.

(** The literal of a site is a string-literal node below the site. *)
Lemma moduleNodeOf_descendant (site : Node) (l : LiteralLikeNode) :
  moduleNodeOf site = Some l → StringLiteral l ∈ descendants site.
Proof.
  assert (L : ∀ o, literalOf o = Some l → o = Some (StringLiteral l)).
  { intros [[]|]; cbn; congruence. }
  destruct site as [l0 | | e q targs args | ms n ref | e | ms clause spec
                   | ms clause spec | k cs]; cbn [moduleNodeOf];
    try discriminate; intros H.
  - destruct (isImportKeyword e); [|discriminate].
    apply L in H. destruct args as [|a args]; [discriminate|].
    cbn in H. injection H as ->.
    apply descendants_child. cbn [children].
    rewrite !elem_of_app. do 3 right. apply list_elem_of_here.
  - apply L in H.
    destruct ref; cbn [referenceExpression] in H; try discriminate.
    subst. apply (descendants_trans _ (ExternalModuleReference
                                          (Some (StringLiteral l)))).
    + apply descendants_child. cbn [children].
      rewrite elem_of_app. right. set_solver.
    + apply descendants_child. cbn. set_solver.
  - apply L in H. subst. apply descendants_child. cbn [children option_list].
    rewrite !elem_of_app. do 2 right. set_solver.
  - apply L in H. subst. apply descendants_child. cbn [children option_list].
    rewrite !elem_of_app. do 2 right. set_solver.
Qed.

(** X3.  Every extracted reference is a string-literal node of the tree,
    so the offsets its diagnostics are ranged with are those of a literal
    that stands in the document. *)
Theorem delint_yields_literals_of_tree
  (sourceFile : Node) (moduleNode : LiteralLikeNode) :
  moduleNode ∈ delint sourceFile →
  StringLiteral moduleNode ∈ descendants sourceFile.
Proof.
  rewrite delint_preorder. intros H.
  apply list_elem_of_omap in H as (site & Hs & Hm).
  apply (descendants_trans _ site); [assumption|].
  now apply moduleNodeOf_descendant.
Qed.

Lemma delint_yields_literals_of_tree_witness :
  StringLiteral importLiteral ∈ descendants importTree.
Proof.
  apply (delint_yields_literals_of_tree importTree importLiteral).
  apply list_elem_of_singleton. reflexivity.
Defined.

(** ** What [generate] returns *)

Lemma checkModuleNodes_cases name services document dir moduleNodes :
  ∀ acc,
    match firstRejection services dir moduleNodes with
    | None =>
        checkModuleNodes name services document dir moduleNodes acc =
        (Ok (), acc ++ flat_map (pushedBy name services document dir)
                         moduleNodes)
    | Some e =>
        ∃ ds, checkModuleNodes name services document dir moduleNodes acc
              = (Throw e, ds)
    end.
Proof.
  induction moduleNodes as [|n ns IH]; intros acc;
    cbn [firstRejection checkModuleNodes flat_map].
  - now rewrite app_nil_r.
  - rewrite checkModuleNode_pushedBy. unfold turnOutcome.
    destruct (resolveModule services dir (text n)) as [m|e]; [|eauto].
    specialize (IH (acc ++ pushedBy name services document dir n)).
    destruct (firstRejection services dir ns); [assumption|].
    now rewrite IH, app_assoc.
Qed.

(** A [generate] that returns on a parsed document has met no rejected
    resolution and returns what the turns pushed. *)
Lemma generate_returned name services document config sourceFile ds :
  languageId document ∈ sourceLanguages →
  getWorkspaceConfig services (uri document) = Ok config →
  enable config = true →
  createSourceFile services (uri document) (getText document)
  = Ok sourceFile →
  generate name services document = Ok ds →
  firstRejection services (dirnameOfUri services (uri document))
    (delint sourceFile) = None ∧
  ds = flat_map
         (pushedBy name services document
            (dirnameOfUri services (uri document)))
         (delint sourceFile).
Proof.
  intros Hl Hc He Hs.
  rewrite (generate_parsed name services document config sourceFile)
    by assumption.
  pose proof (checkModuleNodes_cases name services document
                (dirnameOfUri services (uri document)) (delint sourceFile) [])
    as H.
  destruct (firstRejection _ _ _) as [e|].
  - destruct H as [ds' ->]. discriminate.
  - rewrite H. intros [= <-]. split; reflexivity.
Qed.

Lemma firstRejection_None services dir moduleNodes :
  firstRejection services dir moduleNodes = None ↔
  Forall (λ n, ∃ m, resolveModule services dir (text n) = Ok m) moduleNodes.
Proof.
  induction moduleNodes as [|n ns IH]; cbn [firstRejection].
  - split; [constructor|reflexivity].
  - rewrite Forall_cons.
    destruct (resolveModule services dir (text n)) as [m|e].
    + rewrite IH. split; [eauto|tauto].
    + split; [discriminate|]. intros [[m Hm] _]. discriminate Hm.
Qed.

(** X4.  Whenever [generate] returns for a parsed document with the
    analysis enabled, the resolution of every extracted reference has
    succeeded, and the result is the diagnostics of all the references,
    reference after reference in extraction order: no partial list is
    ever returned. *)
Theorem generate_returns_all_in_order
  (name : jsstring) (services : Services) (document : TextDocument)
  (config : WorkspaceConfig) (sourceFile : Node) (ds : list Diagnostic) :
  languageId document ∈ sourceLanguages →
  getWorkspaceConfig services (uri document) = Ok config →
  enable config = true →
  createSourceFile services (uri document) (getText document)
  = Ok sourceFile →
  generate name services document = Ok ds →
  (∀ moduleNode, moduleNode ∈ delint sourceFile →
     ∃ module, resolveModule services
                 (dirnameOfUri services (uri document)) (text moduleNode)
               = Ok module) ∧
  ds = flat_map
         (pushedBy name services document
            (dirnameOfUri services (uri document)))
         (delint sourceFile).
Proof.
  intros Hl Hc He Hs G.
  destruct (generate_returned name services document config sourceFile ds)
    as [Hr Hds]; try assumption.
  split; [|exact Hds].
  apply firstRejection_None in Hr. rewrite Forall_forall in Hr. exact Hr.
Qed.

Lemma generate_returns_all_in_order_witness :
  (∀ moduleNode, moduleNode ∈ delint importTree →
     ∃ module, resolveLocal (str "/work") (text moduleNode) = Ok module) ∧
  [missingExtensionDiagnostic (str "deno") sampleRange;
   notExistDiagnostic (str "deno") sampleRange
     {| filepath := str "/work/./a"; raw := str "./a"; remote := false |}]
  = flat_map
      (pushedBy (str "deno") (servicesFor importTree resolveLocal)
         importDocument (str "/work"))
      (delint importTree).
Proof.
  apply (generate_returns_all_in_order (str "deno")
           (servicesFor importTree resolveLocal) importDocument
           {| enable := true |} importTree).
  - vm_compute. apply list_elem_of_here.
  - reflexivity.
  - reflexivity.
  - reflexivity.
  - vm_compute. reflexivity.
Defined.

(** X5.  For a document that is not TypeScript, for a workspace where the
    analysis is disabled, and for a text the parser throws on, [diagnosis]
    still publishes: an empty list under the document's uri and version.
    For a document that is not TypeScript no service is consulted. *)
Theorem diagnosis_publishes_empty_list
  (name : jsstring) (services : Services) (document : TextDocument) :
  languageId document ∉ sourceLanguages
  ∨ (∃ config, getWorkspaceConfig services (uri document) = Ok config ∧
               (enable config = false
                ∨ ∃ e, createSourceFile services (uri document)
                         (getText document) = Throw e)) →
  diagnosis name services document =
  Ok {| publish_uri := uri document;
        publish_version := version document;
        publish_diagnostics := [] |}.
Proof.
  intros H.
  assert (G : generate name services document = Ok []).
  { unfold generate. destruct H as [H|(config & Hc & H)].
    - now rewrite bool_decide_eq_false_2.
    - destruct (negb _); [reflexivity|]. rewrite Hc.
      destruct H as [->|[e He]]; [reflexivity|].
      destruct (negb _); [reflexivity|]. now rewrite He. }
  unfold diagnosis. now rewrite G.
Qed.

Lemma diagnosis_publishes_empty_list_witness :
  diagnosis (str "deno") servicesWithoutConfig markdownDocument =
  Ok {| publish_uri := str "file:///work/README.md";
        publish_version := 7;
        publish_diagnostics := [] |}.
Proof.
  apply (diagnosis_publishes_empty_list (str "deno") servicesWithoutConfig
           markdownDocument).
  left. vm_compute. intros H.
  repeat (apply elem_of_cons in H as [H|H]; [discriminate H|]).
  now apply elem_of_nil in H.
Defined.

(** X6.  For a TypeScript document, a configuration that cannot be read
    rejects [diagnosis] with the same error, before anything is parsed or
    resolved; and [diagnosis] publishes only if the configuration was
    read and, the analysis being enabled and the document parsed, no
    resolution of an extracted reference was rejected. *)
Theorem diagnosis_needs_config_and_resolutions
  (name : jsstring) (services : Services) (document : TextDocument) :
  languageId document ∈ sourceLanguages →
  (∀ e, getWorkspaceConfig services (uri document) = Throw e →
        diagnosis name services document = Throw e) ∧
  (∀ p, diagnosis name services document = Ok p →
        ∃ config,
          getWorkspaceConfig services (uri document) = Ok config ∧
          (enable config = false
           ∨ (∃ e, createSourceFile services (uri document)
                     (getText document) = Throw e)
           ∨ ∃ sourceFile,
               createSourceFile services (uri document) (getText document)
               = Ok sourceFile ∧
               firstRejection services
                 (dirnameOfUri services (uri document))
                 (delint sourceFile) = None)).
Proof.
  intros Hl. split.
  - intros e Hc. unfold diagnosis, generate.
    rewrite bool_decide_eq_true_2 by assumption. cbn [negb].
    now rewrite Hc.
  - intros p Hp.
    assert (G : ∃ ds, generate name services document = Ok ds).
    { unfold diagnosis in Hp.
      destruct (generate name services document) as [ds|e];
        [eauto|discriminate Hp]. }
    destruct G as [ds G].
    destruct (getWorkspaceConfig services (uri document)) as [config|e]
      eqn:Hc.
    + exists config. split; [reflexivity|].
      destruct (enable config) eqn:He; [|now left]. right.
      destruct (createSourceFile services (uri document) (getText document))
        as [sf|e] eqn:Hs; [|left; eauto].
      right. exists sf. split; [reflexivity|].
      now destruct (generate_returned name services document config sf ds)
        as [Hr _].
    + unfold generate in G. rewrite bool_decide_eq_true_2 in G by assumption.
      cbn [negb] in G. rewrite Hc in G. discriminate G.
Qed.

Lemma diagnosis_needs_config_and_resolutions_witness :
  diagnosis (str "deno") servicesWithoutConfig importDocument
  = Throw (str "no config").
Proof.
  apply (diagnosis_needs_config_and_resolutions (str "deno")
           servicesWithoutConfig importDocument).
  - vm_compute. apply list_elem_of_here.
  - reflexivity.
Defined.

Lemma generate_Ok_inv name services document ds :
  generate name services document = Ok ds →
  ds = [] ∨
  ∃ sourceFile,
    createSourceFile services (uri document) (getText document)
    = Ok sourceFile ∧
    ds = flat_map
           (pushedBy name services document
              (dirnameOfUri services (uri document)))
           (delint sourceFile).
Proof.
  unfold generate.
  destruct (negb _); [left; congruence|].
  destruct (getWorkspaceConfig _ _) as [config|]; [|discriminate].
  destruct (negb _); [left; congruence|].
  destruct (createSourceFile _ _ _) as [sf|] eqn:Hs; [|left; congruence].
  pose proof (checkModuleNodes_cases name services document
                (dirnameOfUri services (uri document)) (delint sf) []) as H.
  destruct (firstRejection _ _ _) as [e|].
  - destruct H as [ds' ->]. discriminate.
  - rewrite H. intros [= <-]. right. now exists sf.
Qed.

Lemma pushedBy_member name services document dir moduleNode d :
  d ∈ pushedBy name services document dir moduleNode →
  source d = name ∧
  range d = moduleRange document moduleNode ∧
  ∃ k, code d = codeValue k ∧ severity d = severityOf k.
Proof.
  revert d. reference_cases; intros d Hd; pushed_member Hd;
    (split; [reflexivity|]); (split; [reflexivity|]);
    first [ now exists InvalidModule | now exists MissingExtension
          | now exists PreferHTTPS | now exists LocalModuleNotExist
          | now exists RemoteModuleNotExist ].
Qed.

Lemma pushedBy_length name services document dir moduleNode :
  (length (pushedBy name services document dir moduleNode) ≤ 3)%nat.
Proof. reference_cases; cbn; lia. Qed.

(** X7.  Every diagnostic that [generate] returns carries the name of the
    server as its source, one of the five codes with the severity of
    that code (a warning for [PreferHTTPS], an error otherwise), and the
    range computed for one of the references extracted from the
    document. *)
Theorem generate_diagnostics_are_well_formed
  (name : jsstring) (services : Services) (document : TextDocument)
  (ds : list Diagnostic) (d : Diagnostic) :
  generate name services document = Ok ds →
  d ∈ ds →
  source d = name ∧
  (∃ k, code d = codeValue k ∧ severity d = severityOf k) ∧
  ∃ sourceFile moduleNode,
    createSourceFile services (uri document) (getText document)
    = Ok sourceFile ∧
    moduleNode ∈ delint sourceFile ∧
    range d = moduleRange document moduleNode.
Proof.
  intros G Hd.
  apply generate_Ok_inv in G as [->|(sf & Hs & ->)].
  - now apply elem_of_nil in Hd.
  - apply list_elem_of_In, in_flat_map in Hd as (n & Hn & Hd).
    apply list_elem_of_In in Hn, Hd.
    apply pushedBy_member in Hd as (S1 & S2 & S3).
    split; [assumption|]. split; [assumption|].
    now exists sf, n.
Qed.

Lemma generate_diagnostics_are_well_formed_witness :
  let d := missingExtensionDiagnostic (str "deno") sampleRange in
  source d = str "deno" ∧
  (∃ k, code d = codeValue k ∧ severity d = severityOf k) ∧
  ∃ sourceFile moduleNode,
    createSourceFile (servicesFor importTree resolveLocal)
      (uri importDocument) (getText importDocument) = Ok sourceFile ∧
    moduleNode ∈ delint sourceFile ∧
    range d = moduleRange importDocument moduleNode.
Proof.
  apply (generate_diagnostics_are_well_formed (str "deno")
           (servicesFor importTree resolveLocal) importDocument
           [missingExtensionDiagnostic (str "deno") sampleRange;
            notExistDiagnostic (str "deno") sampleRange
              {| filepath := str "/work/./a"; raw := str "./a";
                 remote := false |}]).
  - vm_compute. reflexivity.
  - apply list_elem_of_here.
Defined.

(** X8.  [generate] returns at most three diagnostics for each reference
    extracted from the document. *)
Theorem generate_at_most_three_per_reference
  (name : jsstring) (services : Services) (document : TextDocument)
  (sourceFile : Node) (ds : list Diagnostic) :
  createSourceFile services (uri document) (getText document)
  = Ok sourceFile →
  generate name services document = Ok ds →
  (length ds ≤ 3 * length (delint sourceFile))%nat.
Proof.
  intros Hs G.
  apply generate_Ok_inv in G as [->|(sf & Hs' & ->)]; [cbn; lia|].
  rewrite Hs in Hs'. injection Hs' as <-.
  induction (delint sourceFile) as [|n ns IH]; [cbn; lia|].
  cbn [flat_map length]. rewrite length_app.
  pose proof (pushedBy_length name services document
                (dirnameOfUri services (uri document)) n).
  lia.
Qed.

Lemma generate_at_most_three_per_reference_witness :
  ∃ ds,
    generate (str "deno") (servicesFor importTree resolveLocal)
      importDocument = Ok ds ∧
    (length ds ≤ 3 * length (delint importTree))%nat.
Proof.
  eexists. split; [vm_compute; reflexivity|].
  apply (generate_at_most_three_per_reference (str "deno")
           (servicesFor importTree resolveLocal) importDocument importTree);
    vm_compute; reflexivity.
Defined.

(** ** The diagnostics of one reference *)

(** X9.  The diagnostics pushed for one reference come in the order of
    the checks: their codes are strictly increasing, so no kind occurs
    twice for a reference. *)
Theorem pushed_codes_increase
  (name : jsstring) (services : Services) (document : TextDocument)
  (dir : jsstring) (moduleNode : LiteralLikeNode) :
  StronglySorted Z.lt
    (code <$> pushedBy name services document dir moduleNode).
Proof.
  reference_cases; cbn;
    repeat (constructor; [|repeat (constructor; [lia|]); constructor]);
    constructor.
Qed.

Lemma httpsPattern_remoteModulePattern s :
  test httpsPattern s = true → test remoteModulePattern s = true.
Proof.
  rewrite test_httpsPattern, test_remoteModulePattern. unfold urlLike.
  intros ->. apply orb_true_r.
Qed.

Lemma relativePathLike_not_urlLike s :
  relativePathLike s = true → urlLike s = false.
Proof.
  unfold urlLike. norm_str.
  destruct s as [|c [|c1 s]]; cbn [relativePathLike startsWith];
    try discriminate.
  intros H. apply andb_true_iff in H as [H _]. apply N.eqb_eq in H.
  subst c. reflexivity.
Qed.

Lemma relativeModulePattern_not_remote s :
  test relativeModulePattern s = true →
  test remoteModulePattern s = true → False.
Proof.
  rewrite test_relativeModulePattern, test_remoteModulePattern.
  intros H1 H2. apply relativePathLike_not_urlLike in H1. congruence.
Qed.

(** X10.  No specifier is both relative and remote, and every specifier
    that passes the [https] test is remote: the three patterns split the
    specifiers into relative ones, [http] ones, [https] ones and the
    rest. *)
Theorem patterns_do_not_overlap (s : jsstring) :
  ¬ (test relativeModulePattern s = true ∧
     test remoteModulePattern s = true) ∧
  (test httpsPattern s = true → test remoteModulePattern s = true).
Proof.
  split; [|apply httpsPattern_remoteModulePattern].
  intros [H1 H2]. exact (relativeModulePattern_not_remote s H1 H2).
Qed.

(** X11.  A reference gets no diagnostic exactly when its specifier is
    relative or starts with [https://], ends with an allowed extension,
    and, if its resolution succeeds, resolves to a file that exists.  A
    rejected resolution adds nothing to a reference that is otherwise
    clean. *)
Theorem reference_is_clean_iff
  (name : jsstring) (services : Services) (document : TextDocument)
  (dir : jsstring) (moduleNode : LiteralLikeNode) :
  pushedBy name services document dir moduleNode = [] ↔
  (relativePathLike (text moduleNode) = true
   ∨ startsWith (str "https://") (text moduleNode) = true) ∧
  hasAllowedExtension (text moduleNode) ∧
  (∀ module, resolveModule services dir (text moduleNode) = Ok module →
             fileExists services (filepath module) = true).
Proof.
  rewrite <- test_relativeModulePattern, <- test_httpsPattern,
    <- hasValidExtension_spec.
  pose proof (httpsPattern_remoteModulePattern (text moduleNode)) as Hh.
  pose proof (relativeModulePattern_not_remote (text moduleNode)) as Hx.
  reference_cases;
    (split;
     [ intros H; try discriminate H;
       (split; [auto|]); (split; [reflexivity|]);
       intros m' E; try discriminate E; injection E as <-; assumption
     | intros (H1 & H2 & H3); try reflexivity; exfalso;
       try discriminate H2;
       try (specialize (H3 _ eq_refl); cbn in *; congruence);
       try (specialize (Hh eq_refl); discriminate Hh);
       try (now apply Hx);
       destruct H1 as [H1|H1]; discriminate H1 ]).
Qed.

(** X12.  A diagnostic of the existence check is pushed only after a
    successful resolution to a file that does not exist; it is an error
    whose message quotes the resolved module's raw specifier, and its
    code is [RemoteModuleNotExist] exactly when the module is remote. *)
Theorem existence_diagnostic_content
  (name : jsstring) (services : Services) (document : TextDocument)
  (dir : jsstring) (moduleNode : LiteralLikeNode) (d : Diagnostic) :
  d ∈ pushedBy name services document dir moduleNode →
  isNotExistCode d = true →
  ∃ module,
    resolveModule services dir (text moduleNode) = Ok module ∧
    fileExists services (filepath module) = false ∧
    severity d = SeverityError ∧
    message d = str "Cannot found module `" ++ raw module ++ str "`." ∧
    (code d = codeValue RemoteModuleNotExist ↔ remote module = true) ∧
    (code d = codeValue LocalModuleNotExist ↔ remote module = false).
Proof.
  revert d. reference_cases; intros d Hd Hc; pushed_member Hd;
    try discriminate Hc;
    (eexists; split; [reflexivity|]); cbn;
    repeat split; try assumption; try reflexivity; try discriminate.
Qed.

Lemma existence_diagnostic_content_witness :
  ∃ module,
    resolveLocal (str "/work") (str "./a") = Ok module ∧
    message (notExistDiagnostic (str "deno") sampleRange module)
    = str "Cannot found module `./a`.".
Proof.
  destruct (existence_diagnostic_content (str "deno")
              (servicesFor importTree resolveLocal) importDocument
              (str "/work") importLiteral
              (notExistDiagnostic (str "deno") sampleRange
                 {| filepath := str "/work/./a"; raw := str "./a";
                    remote := false |}))
    as (m & Hr & _ & _ & Hm & _).
  - vm_compute. apply list_elem_of_further, list_elem_of_here.
  - reflexivity.
  - exists m. split; [exact Hr|].
    injection Hr as <-. reflexivity.
Defined.

Lemma emitted_MissingExtension_iff name services document dir moduleNode :
  emitted MissingExtension (pushedBy name services document dir moduleNode) ↔
  ¬ hasAllowedExtension (text moduleNode).
Proof.
  rewrite <- hasValidExtension_spec.
  assert (E : emitted MissingExtension
                (pushedBy name services document dir moduleNode) ↔
              hasValidExtension (text moduleNode) = false)
    by decide_emitted.
  rewrite E. destruct (hasValidExtension _); intuition congruence.
Qed.

Lemma allowedExtensions_characters e :
  e ∈ allowedExtensions →
  head e = Some 46%N ∧
  ∀ c, c ∈ e → c = 46%N ∨ isAlphaNumeric c = true.
Proof.
  unfold allowedExtensions. intros H.
  repeat (apply elem_of_cons in H as [->|H]);
    try (split; [reflexivity|]; intros c Hc; vm_compute in Hc;
         repeat (apply elem_of_cons in Hc as [->|Hc]);
         solve [ now apply elem_of_nil in Hc | left; reflexivity
               | right; reflexivity ]).
  now apply elem_of_nil in H.
Qed.

(** X13.  The extension is looked for after the last separator only: when
    a character that is neither a dot, a letter nor a digit (a [?], a
    [#], a [/]) is followed by no dot, the reference gets
    [MissingExtension], whatever extension stands before that
    character. *)
Theorem extension_before_separator_is_not_seen
  (name : jsstring) (services : Services) (document : TextDocument)
  (dir : jsstring) (moduleNode : LiteralLikeNode)
  (stem rest : jsstring) (c : N) :
  text moduleNode = stem ++ c :: rest →
  c ≠ 46%N →
  isAlphaNumeric c = false →
  46%N ∉ rest →
  emitted MissingExtension (pushedBy name services document dir moduleNode).
Proof.
  intros Ht Hdot Hc Hrest. apply emitted_MissingExtension_iff.
  intros (stem' & e & He & Hin). rewrite Ht in He.
  apply allowedExtensions_characters in Hin as [Hhead Hchars].
  apply app_eq_app in He as [l [[_ He]|[_ He]]].
  - destruct (Hchars c) as [?|?]; [|congruence|congruence].
    rewrite He. rewrite elem_of_app. right. apply list_elem_of_here.
  - destruct l as [|x l]; cbn [app] in He.
    + subst e. cbn in Hhead. congruence.
    + injection He as -> ->. apply Hrest.
      rewrite elem_of_app. right.
      destruct e as [|y e]; [discriminate Hhead|].
      cbn in Hhead. injection Hhead as ->. apply list_elem_of_here.
Qed.

Lemma extension_before_separator_is_not_seen_witness :
  emitted MissingExtension
    (pushedBy (str "deno") (servicesFor importTree resolveLocal)
       importDocument (str "/work")
       {| pos := 0; end_ := 28;
          text := str "https://x.com/a.ts" ++ 63%N :: str "v=1" |}).
Proof.
  apply (extension_before_separator_is_not_seen (str "deno")
           (servicesFor importTree resolveLocal) importDocument (str "/work")
           {| pos := 0; end_ := 28;
              text := str "https://x.com/a.ts" ++ 63%N :: str "v=1" |}
           (str "https://x.com/a.ts") (str "v=1") 63%N).
  - reflexivity.
  - discriminate.
  - reflexivity.
  - vm_compute. intros H.
    repeat (apply elem_of_cons in H as [H|H]; [discriminate H|]).
    now apply elem_of_nil in H.
Defined.

Lemma emitted_InvalidModule_iff name services document dir moduleNode :
  emitted InvalidModule (pushedBy name services document dir moduleNode) ↔
  relativePathLike (text moduleNode) = false ∧
  urlLike (text moduleNode) = false.
Proof.
  rewrite <- test_relativeModulePattern, <- test_remoteModulePattern.
  decide_emitted.
Qed.

(** X14.  A specifier that is empty, or whose first character is neither
    a dot nor an [h] -- a bare package name, an absolute path -- gets
    [InvalidModule]. *)
Theorem other_specifiers_are_invalid
  (name : jsstring) (services : Services) (document : TextDocument)
  (dir : jsstring) (moduleNode : LiteralLikeNode) :
  (∀ c, head (text moduleNode) = Some c → c ≠ 46%N ∧ c ≠ 104%N) →
  emitted InvalidModule (pushedBy name services document dir moduleNode).
Proof.
  intros H. apply emitted_InvalidModule_iff.
  unfold urlLike. norm_str.
  destruct (text moduleNode) as [|c s]; [split; reflexivity|].
  destruct (H c eq_refl) as [H1 H2].
  assert (E1 : (46 =? c)%N = false) by (apply N.eqb_neq; congruence).
  assert (E2 : (104 =? c)%N = false) by (apply N.eqb_neq; congruence).
  split.
  - destruct s; cbn [relativePathLike]; [reflexivity|]. now rewrite E1.
  - cbn [startsWith]. now rewrite E2.
Qed.

Lemma other_specifiers_are_invalid_witness :
  emitted InvalidModule
    (pushedBy (str "deno") (servicesFor importTree resolveLocal)
       importDocument (str "/work")
       {| pos := 0; end_ := 8; text := str "lodash" |}).
Proof.
  apply (other_specifiers_are_invalid (str "deno")
           (servicesFor importTree resolveLocal) importDocument (str "/work")
           {| pos := 0; end_ := 8; text := str "lodash" |}).
  intros c [= <-]. split; discriminate.
Defined.

(** X15.  The offsets of the range always cover the last
    [text.length + 2] characters of the literal with its quotes.  When
    escape sequences make the raw text longer than the text of the node,
    the range therefore starts inside the literal, as many characters
    past the opening quote as the escapes add. *)
Theorem range_covers_end_of_literal
  (content : jsstring) (moduleNode : LiteralLikeNode)
  (trivia : jsstring) (quote : N) (rawText : jsstring) :
  rawLiteralAt content moduleNode trivia quote rawText →
  (length (text moduleNode) ≤ length rawText)%nat →
  pos moduleNode + numberOfSpaces moduleNode
  = pos moduleNode + jslength trivia
    + (jslength rawText - jslength (text moduleNode)) ∧
  substring content
    (pos moduleNode + numberOfSpaces moduleNode) (end_ moduleNode)
  = drop (length rawText - length (text moduleNode))
      (quote :: rawText ++ [quote]).
Proof.
  intros (before & after & Hc & Hp & He) Hlen.
  assert (Hn : numberOfSpaces moduleNode =
               jslength trivia
               + (jslength rawText - jslength (text moduleNode))).
  { unfold numberOfSpaces. rewrite He, Hp. unfold jslength. lia. }
  split; [lia|].
  set (k := (length rawText - length (text moduleNode))%nat).
  unfold substring. rewrite Hn, Hc, Hp, He. unfold jslength.
  replace (Z.to_nat _)
    with (length (text moduleNode) + 2)%nat by lia.
  replace (Z.to_nat _)
    with (length (before ++ trivia) + k)%nat
    by (rewrite length_app; subst k; lia).
  rewrite (app_assoc before trivia).
  rewrite drop_app_ge by lia.
  replace (length (before ++ trivia) + k - length (before ++ trivia))%nat
    with k by lia.
  change (quote :: rawText ++ quote :: after)
    with ((quote :: rawText) ++ [quote] ++ after).
  rewrite app_assoc.
  change ((quote :: rawText) ++ [quote]) with (quote :: rawText ++ [quote]).
  rewrite drop_app_le
    by (cbn [length]; rewrite length_app; cbn [length]; subst k; lia).
  apply take_app_length'.
  rewrite length_drop. cbn [length]. rewrite length_app. cbn [length].
  subst k. lia.
Qed.

Lemma range_covers_end_of_literal_witness :
  pos escapedLiteral + numberOfSpaces escapedLiteral = 6 + 1 + (9 - 6) ∧
  substring escapedText
    (pos escapedLiteral + numberOfSpaces escapedLiteral)
    (end_ escapedLiteral)
  = str "2e/a.ts" ++ [34%N].
Proof.
  apply (range_covers_end_of_literal escapedText escapedLiteral
           [32%N] 34 (str "\x2e/a.ts")).
  - exists (str "import"), []. repeat split.
  - vm_compute. lia.
Defined.

(** ** The answers of the code-action handler *)

Lemma omap_toAction_arguments name docUri (l : list Diagnostic) :
  actionArguments <$> omap id (toAction name docUri <$> l) =
  (λ v, [ArgString docUri; ArgRange (commandRange v)])
    <$> filter (λ v, is_Some (FixItems !! code v)) l.
Proof.
  induction l as [|v l IH]; [reflexivity|].
  rewrite filter_cons. cbn [fmap list_fmap omap list_omap id].
  unfold toAction at 1.
  destruct (FixItems !! code v) as [f|] eqn:E.
  - rewrite decide_True by eauto. cbn. f_equal. exact IH.
  - rewrite decide_False by (intros [? ?]; discriminate). exact IH.
Qed.

(** X16.  The handler answers [undefined] exactly when no diagnostic of
    the request comes from this server. *)
Theorem onCodeAction_undefined_iff
  (name : jsstring) (params : CodeActionParams) :
  onCodeAction name params = None ↔
  ∀ v, v ∈ context_diagnostics params → source v ≠ name.
Proof.
  unfold onCodeAction. cbv zeta.
  destruct (filter _ (context_diagnostics params)) as [|v0 l] eqn:E.
  - split; [|reflexivity]. intros _ v Hv Hs.
    assert (Hin : v ∈ filter (λ v, source v = name)
                        (context_diagnostics params))
      by (apply list_elem_of_filter; auto).
    rewrite E in Hin. now apply elem_of_nil in Hin.
  - split; [discriminate|]. intros H. exfalso.
    assert (Hin : v0 ∈ filter (λ v, source v = name)
                         (context_diagnostics params))
      by (rewrite E; apply list_elem_of_here).
    apply list_elem_of_filter in Hin as [Hs Hin]. exact (H v0 Hin Hs).
Qed.

(** X17.  When the handler answers with actions, they stand, in the
    order of the request, for the diagnostics of this server whose code
    has a fix, one action each, and each command receives the document
    and the narrowed range of its diagnostic; the others are skipped, so
    the answer may be an empty array. *)
Theorem onCodeAction_actions_in_order
  (name : jsstring) (params : CodeActionParams) (actions : list CodeAction) :
  onCodeAction name params = Some actions →
  actionArguments <$> actions =
  (λ v, [ArgString (textDocument_uri params); ArgRange (commandRange v)])
    <$> filter (λ v, is_Some (FixItems !! code v) ∧ source v = name)
          (context_diagnostics params).
Proof.
  unfold onCodeAction. cbv zeta.
  destruct (filter _ (context_diagnostics params)) as [|v0 l] eqn:E;
    [discriminate|].
  rewrite <- E. intros [= <-].
  now rewrite omap_toAction_arguments, list_filter_filter.
Qed.

Lemma onCodeAction_actions_in_order_witness :
  actionArguments <$>
    [CodeAction_create
       (str "Add `.ts` extension." ++ str " (" ++ str "deno" ++ str ")")
       (Command_create (str "Add `.ts` extension.")
          (str "deno._add_missing_extension")
          [ArgString (str "file:///work/mod.ts");
           ArgRange (commandRange
                       (missingExtensionDiagnostic (str "deno")
                          sampleRange))])
       QuickFix]
  = (λ v, [ArgString (textDocument_uri sampleParams);
           ArgRange (commandRange v)])
      <$> filter (λ v, is_Some (FixItems !! code v) ∧ source v = str "deno")
            (context_diagnostics sampleParams).
Proof.
  apply (onCodeAction_actions_in_order (str "deno") sampleParams).
  vm_compute. reflexivity.
Defined.

Lemma filter_own_source name (ds : list Diagnostic) :
  Forall (λ d, source d = name) ds →
  filter (λ v, source v = name) ds = ds.
Proof.
  induction 1 as [|d ds Hd _ IH]; [reflexivity|].
  now rewrite filter_cons, decide_True, IH by assumption.
Qed.

(** X18.  Of the diagnostics pushed for one reference, all but
    [InvalidModule] are offered a quick fix: when they are handed back to
    the handler, it answers with one action for each of them, and it
    answers [undefined] only when the reference has no diagnostic. *)
Theorem pushed_diagnostics_get_fixes
  (name : jsstring) (services : Services) (document : TextDocument)
  (dir : jsstring) (moduleNode : LiteralLikeNode) (docUri : jsstring) :
  let ds := pushedBy name services document dir moduleNode in
  match onCodeAction name {| context_diagnostics := ds;
                             textDocument_uri := docUri |} with
  | None => ds = []
  | Some actions =>
      ds ≠ [] ∧
      length actions =
      length (filter (λ d, code d ≠ codeValue InvalidModule) ds)
  end.
Proof.
  cbv zeta. unfold onCodeAction. cbv zeta.
  cbn [context_diagnostics textDocument_uri].
  set (ds := pushedBy name services document dir moduleNode).
  assert (Hown : Forall (λ d, source d = name) ds).
  { apply Forall_forall. intros d Hd.
    now apply pushedBy_member in Hd as [Hs _]. }
  assert (L : length (omap id (toAction name docUri <$> ds)) =
              length (filter (λ d, code d ≠ codeValue InvalidModule) ds)).
  { pose proof (f_equal length (omap_toAction_arguments name docUri ds))
      as L.
    rewrite !length_fmap in L. rewrite L. subst ds. clear.
    reference_cases; vm_compute; reflexivity. }
  rewrite filter_own_source by assumption.
  destruct ds as [|d l]; [reflexivity|].
  split; [discriminate|exact L].
Qed.

(** ** The fix table, for every code *)

Lemma FixItems_lookup (c : Z) :
  FixItems !! c =
  if decide (c = 1002) then FixItems !! 1002
  else if decide (c = 1003) then FixItems !! 1003
  else if decide (c = 1004) then FixItems !! 1004
  else if decide (c = 1005) then FixItems !! 1005
  else None.
Proof.
  repeat case_decide; subst; try reflexivity.
  unfold FixItems. cbn [codeValue].
  rewrite !lookup_insert_ne by congruence.
  now rewrite lookup_singleton_ne by congruence.
Qed.

(** X19.  Whatever code a diagnostic carries, the table holds a fix for
    it exactly when the code is one of 1002, 1003, 1004 and 1005. *)
Theorem FixItems_keys (c : Z) :
  is_Some (FixItems !! c) ↔ 1002 ≤ c ≤ 1005.
Proof.
  rewrite FixItems_lookup.
  repeat case_decide; subst;
    try (split; [lia|intros _; vm_compute; eauto]).
  split; [intros [? ?]; discriminate|lia].
Qed.

(** X20.  No two codes share a command: the command of a fix tells which
    kind of diagnostic it repairs. *)
Theorem FixItems_commands_are_distinct (c1 c2 : Z) (f1 f2 : Fix) :
  FixItems !! c1 = Some f1 →
  FixItems !! c2 = Some f2 →
  command f1 = command f2 →
  c1 = c2.
Proof.
  rewrite (FixItems_lookup c1), (FixItems_lookup c2).
  repeat case_decide; subst; try discriminate; try reflexivity;
    intros [= <-] [= <-]; vm_compute; discriminate.
Qed.

Lemma FixItems_commands_are_distinct_witness : 1003 = 1003.
Proof.
  apply (FixItems_commands_are_distinct 1003 1003
           {| title := str "Use HTTPS module.";
              command := str "deno._use_https_module" |}
           {| title := str "Use HTTPS module.";
              command := str "deno._use_https_module" |});
    reflexivity.
Defined.

(** ** The notification *)

(** X21.  A notification for a uri under which no document is held
    starts nothing; for a held document that is not TypeScript it
    publishes an empty list under the uri and the version of that
    document. *)
Theorem updateDiagnostic_of_held_documents
  (name : jsstring) (services : Services)
  (documents : gmap jsstring TextDocument) (key : jsstring) :
  (documents !! key = None →
   onUpdateDiagnostic name services documents key = None) ∧
  (∀ document,
     documents !! key = Some document →
     languageId document ∉ sourceLanguages →
     onUpdateDiagnostic name services documents key =
     Some (Ok {| publish_uri := uri document;
                 publish_version := version document;
                 publish_diagnostics := [] |})).
Proof.
  unfold onUpdateDiagnostic. split.
  - now intros ->.
  - intros document -> Hl. f_equal.
    unfold diagnosis, generate. now rewrite bool_decide_eq_false_2.
Qed.

Lemma updateDiagnostic_of_held_documents_witness :
  onUpdateDiagnostic (str "deno") servicesWithoutConfig
    (documentsHolding markdownDocument) (uri markdownDocument) =
  Some (Ok {| publish_uri := str "file:///work/README.md";
              publish_version := 7;
              publish_diagnostics := [] |}).
Proof.
  apply (proj2 (updateDiagnostic_of_held_documents (str "deno")
                  servicesWithoutConfig (documentsHolding markdownDocument)
                  (uri markdownDocument)) markdownDocument).
  - apply lookup_singleton_eq.
  - vm_compute. intros H.
    repeat (apply elem_of_cons in H as [H|H]; [discriminate H|]).
    now apply elem_of_nil in H.
Defined.

(** ** What a returned analysis holds for each reference *)

Lemma flat_map_block {A B : Type} (f : A → list B) (l : list A) (x : A) :
  x ∈ l → ∃ before after, flat_map f l = before ++ f x ++ after.
Proof.
  intros Hx. apply list_elem_of_split in Hx as (l1 & l2 & ->).
  exists (flat_map f l1), (flat_map f l2).
  now rewrite flat_map_app.
Qed.

(** A literal without its closing quote is no [literalAt]: its range
    starts past the opening quote. *)
Example unterminated_literal_range :
  unterminatedText !! 6%nat = Some 34%N ∧
  pos unterminatedLiteral + numberOfSpaces unterminatedLiteral = 7 ∧
  ¬ ∃ trivia quote,
      literalAt unterminatedText unterminatedLiteral trivia quote.
Proof.
  split; [reflexivity|]. split; [reflexivity|].
  intros (trivia & quote & before & after & _ & Hp & He).
  cbn [pos end_ text unterminatedLiteral] in Hp, He.
  unfold jslength in *. change (length (str "./a")) with 3%nat in He. lia.
Qed.

Example literalAt_bareLiteral : literalAt bareText bareLiteral [32%N] 34.
Proof. exists (str "import"), []. repeat split. Qed.

Example literalAt_insecureLiteral :
  literalAt insecureText insecureLiteral [32%N] 34.
Proof. exists (str "import"), []. repeat split. Qed.

(** C3, as stated, fails on [import "lodash"] when the resolution of
    [lodash] is rejected: the specifier matches neither pattern, yet
    [generate] is rejected and reports no [InvalidModule] diagnostic. *)
Lemma rejected_resolution_hides_invalid_module :
  let services := servicesFor bareTree resolveFails in
  bareLiteral ∈ delint bareTree ∧
  test relativeModulePattern (text bareLiteral) = false ∧
  test remoteModulePattern (text bareLiteral) = false ∧
  generate (str "deno") services bareDocument
  = Throw (str "resolve failed") ∧
  ¬ ∃ ds, generate (str "deno") services bareDocument = Ok ds ∧
          emitted InvalidModule ds.
Proof.
  cbv zeta.
  assert (G : generate (str "deno") (servicesFor bareTree resolveFails)
                bareDocument = Throw (str "resolve failed"))
    by (vm_compute; reflexivity).
  split; [apply list_elem_of_singleton; reflexivity|].
  split; [vm_compute; reflexivity|].
  split; [vm_compute; reflexivity|].
  split; [exact G|].
  intros (ds & H & _). rewrite G in H. discriminate H.
Qed.

(** C3, amended.  Whenever the analysis of a document returns -- no
    resolution having been rejected -- the returned sequence is made of
    the diagnostics of the references, in extraction order, and those of
    each extracted reference hold an [InvalidModule] diagnostic exactly
    when its specifier matches neither [/^\..+/] nor [/^https?:\/\/.*/];
    that diagnostic is the error built for the reference's range. *)
Theorem returned_invalid_module_iff
  (name : jsstring) (services : Services) (document : TextDocument)
  (config : WorkspaceConfig) (sourceFile : Node) (ds : list Diagnostic) :
  languageId document ∈ sourceLanguages →
  getWorkspaceConfig services (uri document) = Ok config →
  enable config = true →
  createSourceFile services (uri document) (getText document)
  = Ok sourceFile →
  generate name services document = Ok ds →
  ds = flat_map
         (pushedBy name services document
            (dirnameOfUri services (uri document)))
         (delint sourceFile) ∧
  ∀ moduleNode, moduleNode ∈ delint sourceFile →
    let own := pushedBy name services document
                 (dirnameOfUri services (uri document)) moduleNode in
    (∃ before after, ds = before ++ own ++ after) ∧
    (emitted InvalidModule own ↔
       test relativeModulePattern (text moduleNode) = false ∧
       test remoteModulePattern (text moduleNode) = false) ∧
    (emitted InvalidModule own ↔
       relativePathLike (text moduleNode) = false ∧
       urlLike (text moduleNode) = false) ∧
    (∀ d, d ∈ own → code d = codeValue InvalidModule →
          severity d = SeverityError ∧
          d = invalidModuleDiagnostic name
                (moduleRange document moduleNode)).
Proof.
  intros Hl Hc He Hs G.
  destruct (generate_returned name services document config sourceFile ds)
    as [_ Hds]; try assumption.
  split; [exact Hds|]. intros moduleNode Hin. cbv zeta.
  split.
  - rewrite Hds. now apply flat_map_block.
  - apply (invalid_module_iff_no_pattern_matches name services document
             (dirnameOfUri services (uri document)) moduleNode).
Qed.

Lemma returned_invalid_module_iff_witness :
  let own := pushedBy (str "deno") (servicesFor bareTree resolveLocal)
               bareDocument (str "/work") bareLiteral in
  generate (str "deno") (servicesFor bareTree resolveLocal) bareDocument
  = Ok own ∧
  emitted InvalidModule own.
Proof.
  cbv zeta.
  assert (G : generate (str "deno") (servicesFor bareTree resolveLocal)
                bareDocument
              = Ok (pushedBy (str "deno") (servicesFor bareTree resolveLocal)
                      bareDocument (str "/work") bareLiteral))
    by (vm_compute; reflexivity).
  split; [exact G|].
  destruct (returned_invalid_module_iff (str "deno")
              (servicesFor bareTree resolveLocal) bareDocument
              {| enable := true |} bareTree _
              ltac:(vm_compute; apply list_elem_of_here)
              eq_refl eq_refl eq_refl G) as [_ H].
  destruct (H bareLiteral ltac:(apply list_elem_of_singleton; reflexivity))
    as (_ & Hiff & _).
  apply Hiff. split; vm_compute; reflexivity.
Defined.

(** C4, as stated, fails on [import x from "./a"] when the resolution of
    [./a] is rejected: the specifier has no trailing extension, yet
    [generate] is rejected and reports no [MissingExtension]
    diagnostic. *)
Lemma rejected_resolution_hides_missing_extension :
  let services := servicesFor importTree resolveFails in
  importLiteral ∈ delint importTree ∧
  exec extensionPattern (text importLiteral) = None ∧
  generate (str "deno") services importDocument
  = Throw (str "resolve failed") ∧
  ¬ ∃ ds, generate (str "deno") services importDocument = Ok ds ∧
          emitted MissingExtension ds.
Proof.
  cbv zeta.
  assert (G : generate (str "deno") (servicesFor importTree resolveFails)
                importDocument = Throw (str "resolve failed"))
    by (vm_compute; reflexivity).
  split; [apply list_elem_of_singleton; reflexivity|].
  split; [vm_compute; reflexivity|].
  split; [exact G|].
  intros (ds & H & _). rewrite G in H. discriminate H.
Qed.

(** C4, amended.  Whenever the analysis of a document returns -- no
    resolution having been rejected -- the returned sequence is made of
    the diagnostics of the references, in extraction order, and those of
    each extracted reference hold a [MissingExtension] diagnostic
    exactly when the match of [/\.[a-zA-Z\d]+$/] in its specifier is not
    one of [.ts], [.tsx], [.js], [.jsx], [.json], [.wasm] -- a specifier
    without such a match included -- that is, exactly when the specifier
    does not end with one of the six; the diagnostic is an error. *)
Theorem returned_missing_extension_iff
  (name : jsstring) (services : Services) (document : TextDocument)
  (config : WorkspaceConfig) (sourceFile : Node) (ds : list Diagnostic) :
  languageId document ∈ sourceLanguages →
  getWorkspaceConfig services (uri document) = Ok config →
  enable config = true →
  createSourceFile services (uri document) (getText document)
  = Ok sourceFile →
  generate name services document = Ok ds →
  ds = flat_map
         (pushedBy name services document
            (dirnameOfUri services (uri document)))
         (delint sourceFile) ∧
  ∀ moduleNode, moduleNode ∈ delint sourceFile →
    let own := pushedBy name services document
                 (dirnameOfUri services (uri document)) moduleNode in
    (∃ before after, ds = before ++ own ++ after) ∧
    (emitted MissingExtension own ↔
       match exec extensionPattern (text moduleNode) with
       | Some extensionName => extensionName ∉ allowedExtensions
       | None => True
       end) ∧
    (exec extensionPattern (text moduleNode) = None →
       emitted MissingExtension own) ∧
    (emitted MissingExtension own ↔
       ¬ hasAllowedExtension (text moduleNode)) ∧
    (∀ d, d ∈ own → code d = codeValue MissingExtension →
          severity d = SeverityError ∧
          d = missingExtensionDiagnostic name
                (moduleRange document moduleNode)).
Proof.
  intros Hl Hc He Hs G.
  destruct (generate_returned name services document config sourceFile ds)
    as [_ Hds]; try assumption.
  split; [exact Hds|]. intros moduleNode Hin. cbv zeta.
  split.
  - rewrite Hds. now apply flat_map_block.
  - apply (missing_extension_iff_not_allowed name services document
             (dirnameOfUri services (uri document)) moduleNode).
Qed.

Lemma returned_missing_extension_iff_witness :
  let own := pushedBy (str "deno") (servicesFor importTree resolveLocal)
               importDocument (str "/work") importLiteral in
  generate (str "deno") (servicesFor importTree resolveLocal) importDocument
  = Ok own ∧
  emitted MissingExtension own.
Proof.
  cbv zeta.
  assert (G : generate (str "deno") (servicesFor importTree resolveLocal)
                importDocument
              = Ok (pushedBy (str "deno")
                      (servicesFor importTree resolveLocal)
                      importDocument (str "/work") importLiteral))
    by (vm_compute; reflexivity).
  split; [exact G|].
  destruct (returned_missing_extension_iff (str "deno")
              (servicesFor importTree resolveLocal) importDocument
              {| enable := true |} importTree _
              ltac:(vm_compute; apply list_elem_of_here)
              eq_refl eq_refl eq_refl G) as [_ H].
  destruct (H importLiteral ltac:(apply list_elem_of_singleton; reflexivity))
    as (_ & _ & Hnone & _).
  apply Hnone. vm_compute. reflexivity.
Defined.

(** C5, as stated, fails on [import "http://x.com/a.ts"] when the
    resolution of the specifier is rejected: the specifier is URL-like
    and does not start with [https://], yet [generate] is rejected and
    reports no [PreferHTTPS] diagnostic. *)
Lemma rejected_resolution_hides_prefer_https :
  let services := servicesFor insecureTree resolveFails in
  insecureLiteral ∈ delint insecureTree ∧
  test remoteModulePattern (text insecureLiteral) = true ∧
  test httpsPattern (text insecureLiteral) = false ∧
  generate (str "deno") services insecureDocument
  = Throw (str "resolve failed") ∧
  ¬ ∃ ds, generate (str "deno") services insecureDocument = Ok ds ∧
          emitted PreferHTTPS ds.
Proof.
  cbv zeta.
  assert (G : generate (str "deno") (servicesFor insecureTree resolveFails)
                insecureDocument = Throw (str "resolve failed"))
    by (vm_compute; reflexivity).
  split; [apply list_elem_of_singleton; reflexivity|].
  split; [vm_compute; reflexivity|].
  split; [vm_compute; reflexivity|].
  split; [exact G|].
  intros (ds & H & _). rewrite G in H. discriminate H.
Qed.

(** C5, amended.  Whenever the analysis of a document returns -- no
    resolution having been rejected -- the returned sequence is made of
    the diagnostics of the references, in extraction order, and those of
    each extracted reference hold a [PreferHTTPS] diagnostic exactly
    when its specifier matches [/^https?:\/\/.*/] and does not match
    [/^https:\/\//], that is, when it is URL-like and does not start
    with [https://]; a specifier that is not URL-like never gets one.
    The diagnostic is a warning. *)
Theorem returned_prefer_https_iff
  (name : jsstring) (services : Services) (document : TextDocument)
  (config : WorkspaceConfig) (sourceFile : Node) (ds : list Diagnostic) :
  languageId document ∈ sourceLanguages →
  getWorkspaceConfig services (uri document) = Ok config →
  enable config = true →
  createSourceFile services (uri document) (getText document)
  = Ok sourceFile →
  generate name services document = Ok ds →
  ds = flat_map
         (pushedBy name services document
            (dirnameOfUri services (uri document)))
         (delint sourceFile) ∧
  ∀ moduleNode, moduleNode ∈ delint sourceFile →
    let own := pushedBy name services document
                 (dirnameOfUri services (uri document)) moduleNode in
    (∃ before after, ds = before ++ own ++ after) ∧
    (emitted PreferHTTPS own ↔
       test remoteModulePattern (text moduleNode) = true ∧
       test httpsPattern (text moduleNode) = false) ∧
    (emitted PreferHTTPS own ↔
       urlLike (text moduleNode) = true ∧
       startsWith (str "https://") (text moduleNode) = false) ∧
    (urlLike (text moduleNode) = false → ¬ emitted PreferHTTPS own) ∧
    (∀ d, d ∈ own → code d = codeValue PreferHTTPS →
          severity d = SeverityWarning ∧
          d = preferHTTPSDiagnostic name
                (moduleRange document moduleNode)).
Proof.
  intros Hl Hc He Hs G.
  destruct (generate_returned name services document config sourceFile ds)
    as [_ Hds]; try assumption.
  split; [exact Hds|]. intros moduleNode Hin. cbv zeta.
  split.
  - rewrite Hds. now apply flat_map_block.
  - apply (prefer_https_iff_insecure_url name services document
             (dirnameOfUri services (uri document)) moduleNode).
Qed.

Lemma returned_prefer_https_iff_witness :
  let own := pushedBy (str "deno") (servicesFor insecureTree resolveRemote)
               insecureDocument (str "/work") insecureLiteral in
  generate (str "deno") (servicesFor insecureTree resolveRemote)
    insecureDocument = Ok own ∧
  emitted PreferHTTPS own.
Proof.
  cbv zeta.
  assert (G : generate (str "deno") (servicesFor insecureTree resolveRemote)
                insecureDocument
              = Ok (pushedBy (str "deno")
                      (servicesFor insecureTree resolveRemote)
                      insecureDocument (str "/work") insecureLiteral))
    by (vm_compute; reflexivity).
  split; [exact G|].
  destruct (returned_prefer_https_iff (str "deno")
              (servicesFor insecureTree resolveRemote) insecureDocument
              {| enable := true |} insecureTree _
              ltac:(vm_compute; apply list_elem_of_here)
              eq_refl eq_refl eq_refl G) as [_ H].
  destruct (H insecureLiteral
              ltac:(apply list_elem_of_singleton; reflexivity))
    as (_ & Hiff & _).
  apply Hiff. split; vm_compute; reflexivity.
Defined.
